(** * GlimpseGPT: the video-history component

    A shallow embedding of [src/frontend/components/video-history.tsx]
    (the [VideoHistory] React component) and the properties of its
    history store: load policy, remove, clear, reprocess and the
    external-open action.

    The component keeps one piece of React state ([history]) and talks
    to the outside through the Supabase helpers, [localStorage],
    [JSON.parse], [console.error], [toast], [window.dispatchEvent] and
    [window.open].  The state and the outgoing calls are threaded
    through a small state-and-exception monad; the answers of the
    outside world are read from an environment record. *)

From Stdlib Require Import String Ascii List Bool ZArith Lia.
Import ListNotations.

Local Open Scope string_scope.
Local Open Scope list_scope.

(** ** Data model *)

(** [interface HistoryItem] (lines 13-21). [timestamp] is a JS number
    holding epoch milliseconds. *)
Record HistoryItem : Type := mkHistoryItem {
  id : string;
  title : string;
  thumbnailUrl : string;
  url : string;
  timestamp : Z;
  language : string;
  user_id : string
}.

(** The object returned by [useAuth().user]; only its [id] is read. *)
Module Auth.
Record User : Type := mkUser { id : string }.
End Auth.

(** Values that are thrown or passed to [console.error]. *)
Inductive ErrorValue : Type :=
| SyntaxError (message : string)
| StoreError (message : string).

(** A JS completion: the call returns a value or throws. *)
Inductive Completion (A : Type) : Type :=
| Normal (a : A)
| Throw (e : ErrorValue).
Arguments Normal {A} a.
Arguments Throw {A} e.

(** What [JSON.parse] can return, as far as [loadFromLocalStorage]
    looks at it: [Array.isArray] holds of [JArray] only, and the
    elements of an array are read at the type the state is annotated
    with ([HistoryItem[]]). *)
Inductive JsonValue : Type :=
| JNull
| JBool (b : bool)
| JNumber (n : Z)
| JString (s : string)
| JObject
| JArray (items : list HistoryItem).

(** The [{ data, error }] pair of [getVideoHistory]. *)
Record FetchResult : Type := mkFetchResult {
  data : option (list HistoryItem);
  fetch_error : option ErrorValue
}.

(** The [{ error }] of [removeVideoFromHistory] and [clearVideoHistory]. *)
Record WriteResult : Type := mkWriteResult {
  write_error : option ErrorValue
}.

(** The argument of [toast]. *)
Record ToastArgs : Type := mkToast {
  toast_title : string;
  description : string;
  variant : option string
}.

(** The [detail] of the [reprocessVideo] custom event. *)
Record ReprocessDetail : Type := mkDetail {
  detail_url : string;
  detail_language : string
}.

(** Calls that leave the component, in the order they are made. *)
Inductive Effect : Type :=
| CallGetVideoHistory (userId : string)
| CallRemoveVideoFromHistory (entryId : string)
| CallClearVideoHistory (userId : string)
| LocalStorageGetItem (key : string)
| ConsoleError (msg : string) (err : ErrorValue)
| ShowToast (t : ToastArgs)
| DispatchEvent (type : string) (detail : ReprocessDetail)
| WindowOpen (target_url : string) (target : string).

(** The outside world as it answers during one handler invocation. The
    Supabase helpers live in [backend/lib/supabase]; they resolve to a
    result object and report failure through its [error] field. *)
Record Env : Type := mkEnv {
  getVideoHistory : string -> FetchResult;
  removeVideoFromHistory : string -> WriteResult;
  clearVideoHistory : string -> WriteResult;
  localStorage_getItem : string -> option string;
  JSON_parse : string -> Completion JsonValue
}.

(** The component: its [history] state and the log of outgoing calls. *)
Record Component : Type := mkComponent {
  history : list HistoryItem;
  effects : list Effect
}.

(** [useState<HistoryItem[]>([])] on mount. *)
Definition mounted : Component := mkComponent [] [].

(** ** The monad of handler bodies *)

Definition M (A : Type) : Type := Component -> Completion A * Component.

Definition ret {A : Type} (a : A) : M A := fun c => (Normal a, c).

Definition bind {A B : Type} (m : M A) (f : A -> M B) : M B :=
  fun c =>
    match m c with
    | (Normal a, c') => f a c'
    | (Throw e, c') => (Throw e, c')
    end.

(** [try { body } catch (error) { handler }] *)
Definition try_catch {A : Type} (body : M A) (handler : ErrorValue -> M A) : M A :=
  fun c =>
    match body c with
    | (Normal a, c') => (Normal a, c')
    | (Throw e, c') => handler e c'
    end.

Definition lift {A : Type} (r : Completion A) : M A := fun c => (r, c).

Definition emit (e : Effect) : M unit :=
  fun c => (Normal tt, mkComponent (history c) (effects c ++ [e])).

Definition setHistory (h : list HistoryItem) : M unit :=
  fun c => (Normal tt, mkComponent h (effects c)).

(** The [history] a handler closes over. *)
Definition readHistory : M (list HistoryItem) :=
  fun c => (Normal (history c), c).

Declare Scope handler_scope.
Delimit Scope handler_scope with handler.
Notation "x <- m ;; k" := (bind m (fun x => k))
  (at level 61, m at next level, right associativity) : handler_scope.
Notation "m ;; k" := (bind m (fun _ => k))
  (at level 61, right associativity) : handler_scope.
Local Open Scope handler_scope.

(** Running a handler: the state it leaves, and how it completed. *)
Definition exec {A : Type} (m : M A) (c : Component) : Component := snd (m c).
Definition completion {A : Type} (m : M A) (c : Component) : Completion A := fst (m c).

(** ** JS helpers *)

(** [const userId = user?.id || 'anonymous'] (line 27): a missing user
    and an empty id both give the sentinel. *)
Definition userId (user : option Auth.User) : string :=
  match user with
  | Some u => if String.eqb (Auth.id u) "" then "anonymous" else Auth.id u
  | None => "anonymous"
  end.

(** [String.prototype.includes]. *)
Fixpoint includes (s pat : string) : bool :=
  String.prefix pat s ||
  match s with
  | EmptyString => false
  | String _ rest => includes rest pat
  end.

(** Truthiness of a [string | null]. *)
Definition truthy (s : option string) : option string :=
  match s with
  | Some EmptyString => None
  | other => other
  end.

Definition console_error (msg : string) (err : ErrorValue) : M unit :=
  emit (ConsoleError msg err).

Definition toast (t : ToastArgs) : M unit := emit (ShowToast t).

Definition dquote : string := String (ascii_of_nat 34) EmptyString.

(** ** The component's functions *)

(** [loadFromLocalStorage] (lines 55-67). *)
Definition loadFromLocalStorage (env : Env) : M unit :=
  emit (LocalStorageGetItem "videoHistory") ;;
  match truthy (localStorage_getItem env "videoHistory") with
  | Some savedHistory =>
      try_catch
        (parsedHistory <- lift (JSON_parse env savedHistory) ;;
         match parsedHistory with
         | JArray items =>
             if Nat.ltb 0 (length items) then setHistory items else ret tt
         | _ => ret tt
         end)
        (fun error =>
           console_error "Failed to parse video history from localStorage" error)
  | None => ret tt
  end.

(** [loadHistory] (lines 31-53), for the [userId] of the render. *)
Definition loadHistory (env : Env) (uid : string) : M unit :=
  if negb (String.eqb uid "anonymous") then
    emit (CallGetVideoHistory uid) ;;
    let r := getVideoHistory env uid in
    match fetch_error r with
    | Some error =>
        console_error "Failed to fetch video history" error ;;
        loadFromLocalStorage env
    | None =>
        match data r with
        | Some (d :: ds) => setHistory (d :: ds)
        | _ => loadFromLocalStorage env
        end
    end
  else
    loadFromLocalStorage env.

(** [handleHistoryUpdated] (lines 73-75). *)
Definition handleHistoryUpdated (env : Env) (uid : string) : M unit :=
  loadHistory env uid.

(** [handleReprocess] (lines 84-95). *)
Definition handleReprocess (item : HistoryItem) : M unit :=
  emit (DispatchEvent "reprocessVideo" (mkDetail (url item) (language item))) ;;
  toast (mkToast "Reprocessing Video"
           ("Reprocessing " ++ dquote ++ title item ++ dquote)%string
           None).

(** [removeFromHistory] (lines 97-115). *)
Definition removeFromHistory (env : Env) (entryId : string) : M unit :=
  closed_over <- readHistory ;;
  emit (CallRemoveVideoFromHistory entryId) ;;
  match write_error (removeVideoFromHistory env entryId) with
  | Some _ =>
      toast (mkToast "Error" "Failed to remove video from history"
               (Some "destructive"))
  | None =>
      setHistory
        (filter (fun item => negb (String.eqb (id item) entryId)) closed_over) ;;
      toast (mkToast "Removed from History" "Video removed from your history"
               None)
  end.

(** [clearHistory] (lines 117-135). *)
Definition clearHistory (env : Env) (uid : string) : M unit :=
  emit (CallClearVideoHistory uid) ;;
  match write_error (clearVideoHistory env uid) with
  | Some _ =>
      toast (mkToast "Error" "Failed to clear history" (Some "destructive"))
  | None =>
      setHistory [] ;;
      toast (mkToast "History Cleared" "Your video history has been cleared"
               None)
  end.

(** [handleOpenYoutubeVideo] (lines 137-141). [&&] binds tighter than
    [||], so the emptiness guard covers the first test only. *)
Definition handleOpenYoutubeVideo (u : string) : M unit :=
  if (negb (String.eqb u "") && includes u "youtube.com")
     || includes u "youtu.be"
  then emit (WindowOpen u "_blank")
  else ret tt.

(** ** Observations on the log *)

Definition is_remote_call (e : Effect) : bool :=
  match e with
  | CallGetVideoHistory _
  | CallRemoveVideoFromHistory _
  | CallClearVideoHistory _ => true
  | _ => false
  end.

Definition is_dispatch (e : Effect) : bool :=
  match e with DispatchEvent _ _ => true | _ => false end.

Definition is_console_error (e : Effect) : bool :=
  match e with ConsoleError _ _ => true | _ => false end.

(** What [loadFromLocalStorage] logs after its [getItem]: the caught
    parse error, if [JSON.parse] threw. *)
Definition parse_failure_log (env : Env) : list Effect :=
  match truthy (localStorage_getItem env "videoHistory") with
  | Some text =>
      match JSON_parse env text with
      | Throw e =>
          [ConsoleError "Failed to parse video history from localStorage" e]
      | Normal _ => []
      end
  | None => []
  end.

(** [s] occurs in [u] as a substring. *)
Definition contains (u s : string) : Prop :=
  exists before after, u = (before ++ s ++ after)%string.

(** The log of one invocation, started from a given list. *)
Definition log_of {A : Type} (m : M A) (h : list HistoryItem) : list Effect :=
  effects (exec m (mkComponent h [])).

(** ** The words of the specification, for comparison *)

(** [LocalCache.read()] as section 4.2 words it: the list held in the
    slot, and the empty list on an absent slot, a deserialization error
    or a payload that is not a sequence. *)
Definition spec_LocalCache_read (env : Env) : list HistoryItem :=
  match truthy (localStorage_getItem env "videoHistory") with
  | Some text =>
      match JSON_parse env text with
      | Normal (JArray items) => items
      | _ => []
      end
  | None => []
  end.

(** The host of a URL, as the data model's "host patterns" need it:
    the authority (between the scheme's [://] and the first [/], [?]
    or [#]) without user information and port. *)
Fixpoint take_while (keep : ascii -> bool) (s : string) : string :=
  match s with
  | EmptyString => EmptyString
  | String ch rest =>
      if keep ch then String ch (take_while keep rest) else EmptyString
  end.

Definition after_scheme (u : string) : string :=
  match String.index 0 "://" u with
  | Some n => String.substring (n + 3) (String.length u - (n + 3)) u
  | None => u
  end.

Fixpoint strip_userinfo (s : string) : string :=
  match s with
  | EmptyString => EmptyString
  | String ch rest =>
      if includes rest "@" then strip_userinfo rest
      else if Ascii.eqb ch "@" then rest
      else String ch rest
  end.

Definition ends_authority (ch : ascii) : bool :=
  Ascii.eqb ch "/" || Ascii.eqb ch "?" || Ascii.eqb ch "#".

Definition spec_url_host (u : string) : string :=
  take_while (fun ch => negb (Ascii.eqb ch ":"))
    (strip_userinfo
       (take_while (fun ch => negb (ends_authority ch)) (after_scheme u))).

Definition spec_host_whitelisted (u : string) : bool :=
  includes (spec_url_host u) "youtube.com"
  || includes (spec_url_host u) "youtu.be".

(** ** Sample data *)

Module Sample.

Definition talk : HistoryItem :=
  mkHistoryItem "v1" "Conference talk" "https://img.youtube.com/vi/abc/0.jpg"
    "https://www.youtube.com/watch?v=abc" 1700000000000 "en" "u-17".

Definition lecture : HistoryItem :=
  mkHistoryItem "v2" "Lecture" "" "https://youtu.be/xyz"
    1700000500000 "fr" "u-17".

Definition clip : HistoryItem :=
  mkHistoryItem "v3" "Clip" "" "https://videos.example/clip.mp4"
    1700000900000 "en" "u-17".

Definition quoted (s : string) : string := (dquote ++ s ++ dquote)%string.

Definition member (key value : string) : string :=
  (quoted key ++ ":" ++ value)%string.

(** The JSON text of the one-element array holding [talk]. *)
Definition talk_json : string :=
  ("[{" ++ member "id" (quoted "v1") ++ ","
        ++ member "title" (quoted "Conference talk") ++ ","
        ++ member "thumbnailUrl" (quoted "https://img.youtube.com/vi/abc/0.jpg") ++ ","
        ++ member "url" (quoted "https://www.youtube.com/watch?v=abc") ++ ","
        ++ member "timestamp" "1700000000000" ++ ","
        ++ member "language" (quoted "en") ++ ","
        ++ member "user_id" (quoted "u-17") ++ "}]")%string.

(** A stand-in for [JSON.parse]: it answers as the real one does on
    the five texts it knows and on the malformed text [{oops]; no
    other text is given to it below. *)
Definition parse (text : string) : Completion JsonValue :=
  if String.eqb text "[]" then Normal (JArray [])
  else if String.eqb text "null" then Normal JNull
  else if String.eqb text "{}" then Normal JObject
  else if String.eqb text "42" then Normal (JNumber 42)
  else if String.eqb text talk_json then Normal (JArray [talk])
  else Throw (SyntaxError "Unexpected token").

Definition slot (content : option string) (key : string) : option string :=
  if String.eqb key "videoHistory" then content else None.

(** The remote store answers every call without error. *)
Definition online (rows : option (list HistoryItem)) (content : option string) : Env :=
  mkEnv (fun _ => mkFetchResult rows None)
        (fun _ => mkWriteResult None)
        (fun _ => mkWriteResult None)
        (slot content) parse.

(** The remote store fails every call. *)
Definition offline (content : option string) : Env :=
  let unreachable := Some (StoreError "Failed to fetch") in
  mkEnv (fun _ => mkFetchResult None unreachable)
        (fun _ => mkWriteResult unreachable)
        (fun _ => mkWriteResult unreachable)
        (slot content) parse.

Definition showing (h : list HistoryItem) : Component := mkComponent h [].

Definition disguised_url : string :=
  "https://evil.example/watch?from=youtube.com".

(** A signed-in user whose first load was served by the remote store. *)
Definition signed_in_after_load : Component :=
  exec (loadHistory (online (Some [talk]) None) "u-17") mounted.

(** An anonymous user whose first load was served by the local slot. *)
Definition anonymous_after_load : Component :=
  exec (loadHistory (offline (Some talk_json)) "anonymous") mounted.

End Sample.

(** ** What a load ends with *)

(** The list and the log [loadHistory] ends with, written as functions
    of the environment; [loadHistory_run] below proves that running the
    handler gives exactly these. *)
Definition loaded_list (env : Env) (uid : string) (h : list HistoryItem)
  : list HistoryItem :=
  let local := match spec_LocalCache_read env with [] => h | items => items end in
  if String.eqb uid "anonymous" then local
  else match fetch_error (getVideoHistory env uid), data (getVideoHistory env uid) with
       | None, Some (row :: rows) => row :: rows
       | _, _ => local
       end.

Definition loaded_log (env : Env) (uid : string) : list Effect :=
  let local := LocalStorageGetItem "videoHistory" :: parse_failure_log env in
  if String.eqb uid "anonymous" then local
  else match fetch_error (getVideoHistory env uid), data (getVideoHistory env uid) with
       | Some e, _ =>
           CallGetVideoHistory uid
             :: ConsoleError "Failed to fetch video history" e :: local
       | None, Some (row :: rows) => [CallGetVideoHistory uid]
       | None, _ => CallGetVideoHistory uid :: local
       end.

Definition is_toast (e : Effect) : bool :=
  match e with ShowToast _ => true | _ => false end.

Definition is_local_read (e : Effect) : bool :=
  match e with LocalStorageGetItem _ => true | _ => false end.

(** ** The rendered card and its buttons (lines 143-303) *)

(** What can be clicked: [Clear All] (line 199) and, in each row, the
    thumbnail (line 231), [Reprocess] (line 274) and the remove button
    (line 289). *)
Inductive Click : Type :=
| ClickClearAll
| ClickThumbnail (item : HistoryItem)
| ClickReprocess (item : HistoryItem)
| ClickRemove (item : HistoryItem).

Definition row_buttons (item : HistoryItem) : list Click :=
  [ClickThumbnail item; ClickReprocess item; ClickRemove item].

(** [if (history.length === 0)] the card without buttons is returned
    (lines 143-165); otherwise the header button and one row per item,
    in the order of [history.map] (line 210). *)
Definition buttons (h : list HistoryItem) : list Click :=
  match h with
  | [] => []
  | _ :: _ => ClickClearAll :: flat_map row_buttons h
  end.

(** The [onClick] wiring of the four buttons. *)
Definition onClick (env : Env) (uid : string) (b : Click) : M unit :=
  match b with
  | ClickClearAll => clearHistory env uid
  | ClickThumbnail item => handleOpenYoutubeVideo (url item)
  | ClickReprocess item => handleReprocess item
  | ClickRemove item => removeFromHistory env (id item)
  end.

(** ** Handlers split at their [await] *)

(** [removeFromHistory] after [await removeVideoFromHistory(id)]
    (lines 100-114).  [closed_over] is the [history] of the render
    whose button was clicked: the handler is a closure of that render
    and line 109 filters its [history], not the state of the moment. *)
Definition removeFromHistory_resume
           (closed_over : list HistoryItem) (entryId : string)
           (answer : WriteResult) : M unit :=
  match write_error answer with
  | Some _ =>
      toast (mkToast "Error" "Failed to remove video from history"
               (Some "destructive"))
  | None =>
      setHistory
        (filter (fun item => negb (String.eqb (id item) entryId)) closed_over) ;;
      toast (mkToast "Removed from History" "Video removed from your history"
               None)
  end.

(** [clearHistory] after [await clearVideoHistory(userId)] (lines 120-134). *)
Definition clearHistory_resume (answer : WriteResult) : M unit :=
  match write_error answer with
  | Some _ =>
      toast (mkToast "Error" "Failed to clear history" (Some "destructive"))
  | None =>
      setHistory [] ;;
      toast (mkToast "History Cleared" "Your video history has been cleared"
               None)
  end.

(** A handler suspended at its [await], with what it closed over. *)
Inductive Pending : Type :=
| PendingRemove (closed_over : list HistoryItem) (entryId : string)
| PendingClear (uid : string).

Definition resume (p : Pending) (answer : WriteResult) : M unit :=
  match p with
  | PendingRemove closed_over entryId =>
      removeFromHistory_resume closed_over entryId answer
  | PendingClear _ => clearHistory_resume answer
  end.

(** The component and the handlers that wait for the remote store, in
    the order their calls were made. *)
Record Session : Type := mkSession {
  view : Component;
  in_flight : list Pending
}.

Definition start (c : Component) : Session := mkSession c [].

(** What happens next: a button is clicked, or the remote store answers
    the call of the [k]-th waiting handler. *)
Inductive Step : Type :=
| Clicked (b : Click)
| Answered (k : nat) (answer : WriteResult).

Fixpoint drop_nth {A : Type} (k : nat) (l : list A) : list A :=
  match l, k with
  | [], _ => []
  | _ :: rest, O => rest
  | x :: rest, S k' => x :: drop_nth k' rest
  end.

(** A click runs the handler of the current render up to its [await]:
    remove and clear make their remote call and wait, the other two
    handlers have no [await] and run whole.  An answer runs the rest of
    the handler it belongs to. *)
Definition step (uid : string) (s : Session) (ev : Step) : Session :=
  match ev with
  | Clicked ClickClearAll =>
      mkSession (exec (emit (CallClearVideoHistory uid)) (view s))
                (in_flight s ++ [PendingClear uid])
  | Clicked (ClickRemove item) =>
      mkSession (exec (emit (CallRemoveVideoFromHistory (id item))) (view s))
                (in_flight s ++ [PendingRemove (history (view s)) (id item)])
  | Clicked (ClickThumbnail item) =>
      mkSession (exec (handleOpenYoutubeVideo (url item)) (view s)) (in_flight s)
  | Clicked (ClickReprocess item) =>
      mkSession (exec (handleReprocess item) (view s)) (in_flight s)
  | Answered k answer =>
      match nth_error (in_flight s) k with
      | Some p => mkSession (exec (resume p answer) (view s))
                            (drop_nth k (in_flight s))
      | None => s
      end
  end.

Definition session (uid : string) (steps : list Step) (s : Session) : Session :=
  fold_left (step uid) steps s.

(** The answers that let a click run without interruption. *)
Definition answered_at_once (env : Env) (uid : string) (b : Click) : list Step :=
  match b with
  | ClickClearAll => [Answered 0 (clearVideoHistory env uid)]
  | ClickRemove item => [Answered 0 (removeVideoFromHistory env (id item))]
  | ClickThumbnail _ | ClickReprocess _ => []
  end.

(** [l] is what a filter leaves of [h0]. *)
Definition filtered_from (h0 l : list HistoryItem) : Prop :=
  exists keep, l = filter keep h0.

(** The list on display and every list a waiting remove closed over
    are parts of [h0]. *)
Definition within (h0 : list HistoryItem) (s : Session) : Prop :=
  filtered_from h0 (history (view s)) /\
  forall closed_over entryId,
    In (PendingRemove closed_over entryId) (in_flight s) ->
    filtered_from h0 closed_over.

(** ** The remote store *)

(** Modelled from the spec: the remote store behind [getVideoHistory],
    [removeVideoFromHistory] and [clearVideoHistory], whose code
    ([backend/lib/supabase]) is not among the sources.  Section 4.3
    has it as a durable table scoped by user, with [fetchByUser],
    [removeById] and [clearByUser] each returning its error instead of
    throwing; section 7 names the one failure of a call,
    RemoteUnavailable (transport, auth or store side); a call that gets
    through does what its name says. *)
Record RemoteStore : Type := mkRemoteStore {
  table : list HistoryItem
}.

(** Whether one call gets through: [None], or the error it fails with. *)
Definition Link : Type := option ErrorValue.

(** Modelled from the spec: [fetchByUser(userId)] of section 4.3, the
    rows of that user, or the error and no data. *)
Definition spec_fetchByUser (link : Link) (store : RemoteStore) (uid : string)
  : FetchResult :=
  match link with
  | Some unavailable => mkFetchResult None (Some unavailable)
  | None =>
      mkFetchResult
        (Some (filter (fun row => String.eqb (user_id row) uid) (table store)))
        None
  end.

(** Modelled from the spec: [removeById(entryId)] of section 4.3; a
    failed call writes nothing. *)
Definition spec_removeById (link : Link) (store : RemoteStore) (entryId : string)
  : WriteResult * RemoteStore :=
  match link with
  | Some unavailable => (mkWriteResult (Some unavailable), store)
  | None =>
      (mkWriteResult None,
       mkRemoteStore
         (filter (fun row => negb (String.eqb (id row) entryId)) (table store)))
  end.

(** Modelled from the spec: [clearByUser(userId)] of section 4.3: the
    rows of that user are deleted, however many there are; a failed
    call writes nothing. *)
Definition spec_clearByUser (link : Link) (store : RemoteStore) (uid : string)
  : WriteResult * RemoteStore :=
  match link with
  | Some unavailable => (mkWriteResult (Some unavailable), store)
  | None =>
      (mkWriteResult None,
       mkRemoteStore
         (filter (fun row => negb (String.eqb (user_id row) uid)) (table store)))
  end.

(** The outside world of one handler invocation when the remote helpers
    are calls on [store] over [link]; the local side is that of [base]. *)
Definition env_on (base : Env) (link : Link) (store : RemoteStore) : Env :=
  mkEnv (spec_fetchByUser link store)
        (fun entryId => fst (spec_removeById link store entryId))
        (fun uid => fst (spec_clearByUser link store uid))
        (localStorage_getItem base) (JSON_parse base).

(** ** The effect and its subscription (lines 29-82) *)

(** A listener on [window]: its event type and its callback.  The
    callback is a closure made by one run of the effect; [closure]
    stands for its identity as an object and [captured_userId] for the
    [userId] of the render that made it. *)
Record Listener : Type := mkListener {
  listens_to : string;
  closure : nat;
  captured_userId : string
}.

(** The component together with [window]'s listener list; [closures]
    counts the callbacks made so far, so that each new one is a new
    object. *)
Record Page : Type := mkPage {
  component : Component;
  listeners : list Listener;
  closures : nat
}.

Definition same_listener (type : string) (callback : nat) (l : Listener) : bool :=
  String.eqb (listens_to l) type && Nat.eqb (closure l) callback.

(** [window.addEventListener]: a type and callback already listed are
    not listed again. *)
Definition addEventListener (l : Listener) (ls : list Listener) : list Listener :=
  if existsb (same_listener (listens_to l) (closure l)) ls then ls else ls ++ [l].

(** [window.removeEventListener]: the listener of that type and
    callback is taken out, if there is one. *)
Fixpoint removeEventListener (type : string) (callback : nat) (ls : list Listener)
  : list Listener :=
  match ls with
  | [] => []
  | l :: rest =>
      if same_listener type callback l then rest
      else l :: removeEventListener type callback rest
  end.

(** The body of the effect (lines 30-77): the initial load, then the
    subscription of a new [handleHistoryUpdated].  The part of
    [loadHistory] after its [await] is run in place.  The second
    component is the callback the returned cleanup closes over. *)
Definition useEffect_body (env : Env) (uid : string) (p : Page) : Page * nat :=
  (mkPage (exec (loadHistory env uid) (component p))
          (addEventListener (mkListener "videoHistoryUpdated" (closures p) uid)
             (listeners p))
          (S (closures p)),
   closures p).

(** The cleanup the effect returns (lines 79-81). *)
Definition useEffect_cleanup (callback : nat) (p : Page) : Page :=
  mkPage (component p)
         (removeEventListener "videoHistoryUpdated" callback (listeners p))
         (closures p).

(** A mounted component: the page, the callback its pending cleanup
    holds, and the [userId] of the last effect run. *)
Record Mounted : Type := mkMounted {
  page : Page;
  subscription : nat;
  rendered_userId : string
}.

(** React runs the effect on mount; [userId] is its only dependency
    (line 82), so a render with another [userId] runs the cleanup and
    then the effect again, a render with the same [userId] runs
    neither, and unmounting runs the cleanup. *)
Definition mount (env : Env) (uid : string) (p : Page) : Mounted :=
  mkMounted (fst (useEffect_body env uid p)) (snd (useEffect_body env uid p)) uid.

Definition rerender (env : Env) (uid : string) (m : Mounted) : Mounted :=
  if String.eqb uid (rendered_userId m) then m
  else mount env uid (useEffect_cleanup (subscription m) (page m)).

Definition unmount (m : Mounted) : Page :=
  useEffect_cleanup (subscription m) (page m).

Definition rerenders (steps : list (Env * string)) (m : Mounted) : Mounted :=
  fold_left (fun m step => rerender (fst step) (snd step) m) steps m.

(** [window.dispatchEvent(new Event('videoHistoryUpdated'))], made by
    the producer of a new entry: every listener of that type is called
    in the order of the list. *)
Definition dispatch_videoHistoryUpdated (env : Env) (p : Page) : Page :=
  mkPage
    (fold_left
       (fun c l =>
          if String.eqb (listens_to l) "videoHistoryUpdated"
          then exec (handleHistoryUpdated env (captured_userId l)) c
          else c)
       (listeners p) (component p))
    (listeners p) (closures p).

(** No listed callback is newer than the count of callbacks made. *)
Definition listeners_known (p : Page) : Prop :=
  forall l, In l (listeners p) -> closure l < closures p.

(** The mounted component holds exactly one listener, the last of the
    list, after the listeners [others] that were there before it was
    mounted; it is the callback the pending cleanup holds and it
    captures the [userId] of the last effect run. *)
Definition subscribed_after (others : list Listener) (m : Mounted) : Prop :=
  listeners (page m)
    = others ++ [mkListener "videoHistoryUpdated" (subscription m) (rendered_userId m)] /\
  (forall l, In l others -> closure l < subscription m) /\
  subscription m < closures (page m).

(** Unfolds the monad's operations until the handler body is a pair. *)
Ltac run_handler :=
  repeat (progress
            (unfold bind, emit, toast, console_error, setHistory, readHistory,
               try_catch, lift, ret; cbn)).

(** ** Running the local read *)

(** One equation for the whole of [loadFromLocalStorage]: it always
    returns, logs the [getItem] and a caught parse error, and replaces
    the list only by a non-empty array read from the slot. *)
Lemma loadFromLocalStorage_run (env : Env) (c : Component) :
  loadFromLocalStorage env c =
  (Normal tt,
   mkComponent
     (match spec_LocalCache_read env with
      | [] => history c
      | items => items
      end)
     (effects c ++ LocalStorageGetItem "videoHistory" :: parse_failure_log env)).
Proof.
  unfold loadFromLocalStorage, spec_LocalCache_read, parse_failure_log.
  unfold bind, emit, try_catch, lift, console_error; cbn.
  destruct (truthy (localStorage_getItem env "videoHistory")) as [text|]; cbn.
  - destruct (JSON_parse env text) as [[ | | | | |[|first others]]|err];
      cbn; unfold emit; cbn; rewrite <- ?app_assoc; reflexivity.
  - reflexivity.
Qed.

#[local] Arguments loadFromLocalStorage : simpl never.

Lemma loadFromLocalStorage_history (env : Env) (c : Component) :
  history (exec (loadFromLocalStorage env) c) =
  match spec_LocalCache_read env with [] => history c | items => items end.
Proof. unfold exec; rewrite loadFromLocalStorage_run; reflexivity. Qed.

Lemma loadFromLocalStorage_effects (env : Env) (c : Component) :
  effects (exec (loadFromLocalStorage env) c) =
  effects c ++ LocalStorageGetItem "videoHistory" :: parse_failure_log env.
Proof. unfold exec; rewrite loadFromLocalStorage_run; reflexivity. Qed.

Lemma loadFromLocalStorage_returns (env : Env) (c : Component) :
  completion (loadFromLocalStorage env) c = Normal tt.
Proof. unfold completion; rewrite loadFromLocalStorage_run; reflexivity. Qed.

Lemma parse_failure_log_console (env : Env) :
  forallb is_console_error (parse_failure_log env) = true.
Proof.
  unfold parse_failure_log.
  destruct (truthy _) as [text|]; [destruct (JSON_parse env text)|]; reflexivity.
Qed.

Lemma parse_failure_log_local (env : Env) :
  filter is_remote_call (parse_failure_log env) = [].
Proof.
  unfold parse_failure_log.
  destruct (truthy _) as [text|]; [destruct (JSON_parse env text)|]; reflexivity.
Qed.

(** The three ways [loadHistory] can go, as equations. *)
Lemma loadHistory_anonymous (env : Env) :
  loadHistory env "anonymous" = loadFromLocalStorage env.
Proof. reflexivity. Qed.

Lemma authenticated_test (uid : string) :
  uid <> "anonymous" -> negb (String.eqb uid "anonymous") = true.
Proof.
  intros Hauth. destruct (String.eqb_spec uid "anonymous"); [contradiction|reflexivity].
Qed.

Lemma loadHistory_remote_error (env : Env) (uid : string) (e : ErrorValue) (c : Component) :
  uid <> "anonymous" ->
  fetch_error (getVideoHistory env uid) = Some e ->
  loadHistory env uid c =
  loadFromLocalStorage env
    (mkComponent (history c)
       (effects c ++ [CallGetVideoHistory uid;
                      ConsoleError "Failed to fetch video history" e])).
Proof.
  intros Hauth Herr. unfold loadHistory.
  rewrite (authenticated_test _ Hauth), Herr.
  unfold bind, emit, console_error; cbn.
  rewrite <- app_assoc. reflexivity.
Qed.

Lemma loadHistory_remote_empty (env : Env) (uid : string) (c : Component) :
  uid <> "anonymous" ->
  fetch_error (getVideoHistory env uid) = None ->
  data (getVideoHistory env uid) = None \/ data (getVideoHistory env uid) = Some [] ->
  loadHistory env uid c =
  loadFromLocalStorage env
    (mkComponent (history c) (effects c ++ [CallGetVideoHistory uid])).
Proof.
  intros Hauth Herr Hdata. unfold loadHistory.
  rewrite (authenticated_test _ Hauth), Herr.
  unfold bind, emit; cbn.
  destruct Hdata as [-> | ->]; reflexivity.
Qed.

Lemma loadHistory_remote_rows (env : Env) (uid : string) (c : Component)
      (row : HistoryItem) (rows : list HistoryItem) :
  uid <> "anonymous" ->
  fetch_error (getVideoHistory env uid) = None ->
  data (getVideoHistory env uid) = Some (row :: rows) ->
  loadHistory env uid c =
  (Normal tt, mkComponent (row :: rows) (effects c ++ [CallGetVideoHistory uid])).
Proof.
  intros Hauth Herr Hdata. unfold loadHistory.
  rewrite (authenticated_test _ Hauth), Herr, Hdata. reflexivity.
Qed.

(** [userId] gives the sentinel for a missing user, an empty id and the
    id ["anonymous"] itself, and the id otherwise. *)
Lemma userId_anonymous_iff (user : option Auth.User) :
  userId user = "anonymous" <->
  user = None \/ exists u, user = Some u /\ (Auth.id u = "" \/ Auth.id u = "anonymous").
Proof.
  unfold userId. split.
  - destruct user as [u|]; [|now left].
    destruct (String.eqb_spec (Auth.id u) ""); intros Hid; right; exists u; auto.
  - intros [-> | [u [-> [Hid | Hid]]]]; [reflexivity| |].
    + rewrite Hid. reflexivity.
    + rewrite Hid. reflexivity.
Qed.

(** ** Load policy *)

(** C1, as stated, fails: a signed-in user is shown the remote rows,
    the remote store then fails and the local slot is absent; the
    reload keeps the displayed list, while [LocalCache.read()] is the
    empty list. *)
Lemma load_on_remote_error_counterexample :
  "u-17" <> "anonymous" /\
  fetch_error (getVideoHistory (Sample.offline None) "u-17")
    = Some (StoreError "Failed to fetch") /\
  spec_LocalCache_read (Sample.offline None) = [] /\
  history (exec (loadHistory (Sample.offline None) "u-17")
             Sample.signed_in_after_load) = [Sample.talk] /\
  history (exec (loadHistory (Sample.offline None) "u-17")
             Sample.signed_in_after_load)
    <> spec_LocalCache_read (Sample.offline None).
Proof.
  repeat split; try reflexivity; discriminate.
Qed.

(** C1 (amended): for an authenticated user whose remote fetch returns
    an error, [loadHistory] returns normally and ends with the list the
    local read ends with on the same prior list.  That is
    [LocalCache.read()]'s result whenever that result is non-empty or
    the list was empty before the call; when the local read yields
    nothing the prior in-memory list is kept. *)
Theorem load_on_remote_error_is_local_read
        (env : Env) (uid : string) (e : ErrorValue) (c : Component) :
  uid <> "anonymous" ->
  fetch_error (getVideoHistory env uid) = Some e ->
  completion (loadHistory env uid) c = Normal tt /\
  history (exec (loadHistory env uid) c)
    = history (exec (loadFromLocalStorage env) c) /\
  (spec_LocalCache_read env <> [] \/ history c = [] ->
   history (exec (loadHistory env uid) c) = spec_LocalCache_read env) /\
  (spec_LocalCache_read env = [] ->
   history (exec (loadHistory env uid) c) = history c).
Proof.
  intros Hauth Herr.
  unfold completion, exec.
  rewrite (loadHistory_remote_error env uid e c Hauth Herr).
  rewrite !loadFromLocalStorage_run; cbn.
  repeat split.
  - intros [Hread | Hprior]; destruct (spec_LocalCache_read env);
      congruence.
  - intros ->. reflexivity.
Qed.

Lemma load_on_remote_error_is_local_read_witness :
  "u-17" <> "anonymous" /\
  fetch_error (getVideoHistory (Sample.offline (Some Sample.talk_json)) "u-17")
    = Some (StoreError "Failed to fetch") /\
  history (exec (loadHistory (Sample.offline (Some Sample.talk_json)) "u-17")
             mounted) = [Sample.talk].
Proof.
  split; [discriminate|]. split; [reflexivity|].
  apply (load_on_remote_error_is_local_read
           (Sample.offline (Some Sample.talk_json)) "u-17"
           (StoreError "Failed to fetch") mounted);
    [discriminate | reflexivity | right; reflexivity].
Defined.

(** C4: for an authenticated user whose remote fetch succeeds with no
    rows ([null] or an empty array), [loadHistory] goes on to read the
    local slot: it behaves as [loadFromLocalStorage] after the remote
    call, and a non-empty array held in the slot becomes the list. *)
Theorem load_on_empty_remote_reads_local
        (env : Env) (uid : string) (c : Component) :
  uid <> "anonymous" ->
  fetch_error (getVideoHistory env uid) = None ->
  data (getVideoHistory env uid) = None \/ data (getVideoHistory env uid) = Some [] ->
  loadHistory env uid c
    = loadFromLocalStorage env
        (mkComponent (history c) (effects c ++ [CallGetVideoHistory uid])) /\
  effects (exec (loadHistory env uid) c)
    = effects c ++ [CallGetVideoHistory uid; LocalStorageGetItem "videoHistory"]
        ++ parse_failure_log env /\
  history (exec (loadHistory env uid) c)
    = match spec_LocalCache_read env with
      | [] => history c
      | items => items
      end.
Proof.
  intros Hauth Herr Hdata.
  unfold exec.
  rewrite (loadHistory_remote_empty env uid c Hauth Herr Hdata).
  split; [reflexivity|].
  rewrite loadFromLocalStorage_run; cbn.
  rewrite <- app_assoc. split; reflexivity.
Qed.

Lemma load_on_empty_remote_reads_local_witness :
  "u-17" <> "anonymous" /\
  fetch_error (getVideoHistory (Sample.online (Some []) (Some Sample.talk_json)) "u-17")
    = None /\
  data (getVideoHistory (Sample.online (Some []) (Some Sample.talk_json)) "u-17")
    = Some [] /\
  history (exec (loadHistory (Sample.online (Some []) (Some Sample.talk_json)) "u-17")
             mounted) = [Sample.talk].
Proof.
  split; [discriminate|]. split; [reflexivity|]. split; [reflexivity|].
  apply (load_on_empty_remote_reads_local
           (Sample.online (Some []) (Some Sample.talk_json)) "u-17" mounted);
    [discriminate | reflexivity | right; reflexivity].
Defined.

(** C5, as stated, fails: an anonymous user is shown a list read from
    the slot, the slot is then overwritten with malformed text (or with
    a value that is not an array); the reload keeps the displayed list
    instead of returning an empty one. *)
Lemma corrupt_slot_counterexample :
  JSON_parse (Sample.offline (Some "{oops")) "{oops"
    = Throw (SyntaxError "Unexpected token") /\
  history (exec (loadHistory (Sample.offline (Some "{oops")) "anonymous")
             Sample.anonymous_after_load) = [Sample.talk] /\
  JSON_parse (Sample.offline (Some "null")) "null" = Normal JNull /\
  history (exec (loadHistory (Sample.offline (Some "null")) "anonymous")
             Sample.anonymous_after_load) = [Sample.talk] /\
  history (exec (loadHistory (Sample.offline (Some "{oops")) "anonymous")
             Sample.anonymous_after_load) <> [].
Proof.
  repeat split; try reflexivity; discriminate.
Qed.

(** C5 (amended): when the slot holds text that is invalid JSON or does
    not parse to an array, [loadHistory] for an anonymous user returns
    normally and leaves the in-memory list as it was, which is the
    empty list on the first load after mounting; the parse error is
    only logged. *)
Theorem corrupt_slot_is_absorbed
        (env : Env) (user : option Auth.User) (text : string) (c : Component) :
  userId user = "anonymous" ->
  localStorage_getItem env "videoHistory" = Some text ->
  (forall items, JSON_parse env text <> Normal (JArray items)) ->
  completion (loadHistory env (userId user)) c = Normal tt /\
  history (exec (loadHistory env (userId user)) c) = history c /\
  history (exec (loadHistory env (userId user)) mounted) = [].
Proof.
  intros -> Hslot Hbad.
  assert (Hread : spec_LocalCache_read env = []).
  { unfold spec_LocalCache_read. rewrite Hslot.
    destruct text as [|ch rest]; cbn; [reflexivity|].
    destruct (JSON_parse env (String ch rest)) as [[ | | | | |items]|err] eqn:Hparse;
      try reflexivity.
    exfalso. exact (Hbad items eq_refl). }
  unfold completion, exec.
  rewrite !loadHistory_anonymous, !loadFromLocalStorage_run, Hread.
  repeat split.
Qed.

Lemma corrupt_slot_is_absorbed_witness :
  userId None = "anonymous" /\
  localStorage_getItem (Sample.offline (Some "{oops")) "videoHistory" = Some "{oops" /\
  (forall items, JSON_parse (Sample.offline (Some "{oops")) "{oops" <> Normal (JArray items)) /\
  history (exec (loadHistory (Sample.offline (Some "{oops")) (userId None))
             Sample.anonymous_after_load)
    = history Sample.anonymous_after_load.
Proof.
  split; [reflexivity|]. split; [reflexivity|]. split; [discriminate|].
  apply (corrupt_slot_is_absorbed (Sample.offline (Some "{oops")) None "{oops"
           Sample.anonymous_after_load);
    [reflexivity | reflexivity | discriminate].
Defined.

(** C6: for a user context whose id is the sentinel (no user, an empty
    id, or the id ["anonymous"]), [loadHistory] is the local read: it
    makes no call to the remote store, its outcome does not depend on
    what the remote store would answer, and all it logs is the
    [getItem] on the local slot and a caught parse error. *)
Theorem anonymous_load_never_calls_remote
        (env : Env) (user : option Auth.User) (c : Component) :
  userId user = "anonymous" ->
  loadHistory env (userId user) c = loadFromLocalStorage env c /\
  filter is_remote_call (effects (exec (loadHistory env (userId user)) c))
    = filter is_remote_call (effects c) /\
  effects (exec (loadHistory env (userId user)) c)
    = effects c ++ LocalStorageGetItem "videoHistory" :: parse_failure_log env /\
  forallb is_console_error (parse_failure_log env) = true /\
  (forall fetch remove clear,
     loadHistory
       (mkEnv fetch remove clear (localStorage_getItem env) (JSON_parse env))
       (userId user) c
     = loadHistory env (userId user) c).
Proof.
  intros ->. rewrite loadHistory_anonymous.
  split; [reflexivity|].
  rewrite loadFromLocalStorage_effects.
  split.
  { rewrite filter_app; cbn. rewrite parse_failure_log_local. apply app_nil_r. }
  split; [reflexivity|].
  split; [apply parse_failure_log_console|].
  intros fetch remove clear.
  rewrite loadHistory_anonymous, !loadFromLocalStorage_run. reflexivity.
Qed.

Lemma anonymous_load_never_calls_remote_witness :
  userId (Some (Auth.mkUser "")) = "anonymous" /\
  filter is_remote_call
    (effects (exec (loadHistory (Sample.online (Some [Sample.lecture])
                                   (Some Sample.talk_json))
                      (userId (Some (Auth.mkUser "")))) mounted))
    = filter is_remote_call (effects mounted).
Proof.
  split; [reflexivity|].
  apply (anonymous_load_never_calls_remote
           (Sample.online (Some [Sample.lecture]) (Some Sample.talk_json))
           (Some (Auth.mkUser "")) mounted).
  reflexivity.
Defined.

(** C10: when the local slot is absent, or parses to an empty array,
    [loadFromLocalStorage] leaves the in-memory list unchanged; and no
    load, whether it reads the remote store or falls back to the local
    slot, replaces a non-empty list with an empty one. *)
Theorem local_read_keeps_displayed_list
        (env : Env) (uid : string) (c : Component) :
  (localStorage_getItem env "videoHistory" = None \/
   (exists text, localStorage_getItem env "videoHistory" = Some text /\
                 JSON_parse env text = Normal (JArray [])) ->
   history (exec (loadFromLocalStorage env) c) = history c) /\
  (history c <> [] ->
   history (exec (loadFromLocalStorage env) c) <> [] /\
   history (exec (loadHistory env uid) c) <> []).
Proof.
  split.
  - intros Hslot. rewrite loadFromLocalStorage_history.
    assert (Hread : spec_LocalCache_read env = []).
    { unfold spec_LocalCache_read.
      destruct Hslot as [-> | [text [-> Hparse]]]; [reflexivity|].
      destruct text as [|ch rest]; cbn; [reflexivity|].
      rewrite Hparse. reflexivity. }
    rewrite Hread. reflexivity.
  - intros Hshown.
    assert (Hlocal : forall c', history c' = history c ->
                                history (exec (loadFromLocalStorage env) c') <> []).
    { intros c' Hsame. rewrite loadFromLocalStorage_history, Hsame.
      destruct (spec_LocalCache_read env); [assumption | discriminate]. }
    split; [apply Hlocal; reflexivity|].
    destruct (String.eqb_spec uid "anonymous") as [-> | Hauth].
    + unfold exec. rewrite loadHistory_anonymous. apply Hlocal. reflexivity.
    + unfold exec.
      destruct (fetch_error (getVideoHistory env uid)) as [e|] eqn:Herr.
      * rewrite (loadHistory_remote_error env uid e c Hauth Herr).
        apply Hlocal. reflexivity.
      * destruct (data (getVideoHistory env uid)) as [[|row rows]|] eqn:Hdata.
        -- rewrite (loadHistory_remote_empty env uid c Hauth Herr (or_intror Hdata)).
           apply Hlocal. reflexivity.
        -- rewrite (loadHistory_remote_rows env uid c row rows Hauth Herr Hdata).
           discriminate.
        -- rewrite (loadHistory_remote_empty env uid c Hauth Herr (or_introl Hdata)).
           apply Hlocal. reflexivity.
Qed.

Lemma local_read_keeps_displayed_list_witness :
  localStorage_getItem (Sample.offline (Some "[]")) "videoHistory" = Some "[]" /\
  JSON_parse (Sample.offline (Some "[]")) "[]" = Normal (JArray []) /\
  history Sample.signed_in_after_load <> [] /\
  history (exec (loadFromLocalStorage (Sample.offline (Some "[]")))
             Sample.signed_in_after_load)
    = history Sample.signed_in_after_load /\
  history (exec (loadHistory (Sample.offline (Some "[]")) "u-17")
             Sample.signed_in_after_load) <> [].
Proof.
  split; [reflexivity|]. split; [reflexivity|]. split; [discriminate|].
  split.
  - apply (proj1 (local_read_keeps_displayed_list
                    (Sample.offline (Some "[]")) "u-17" Sample.signed_in_after_load)).
    right. exists "[]". split; reflexivity.
  - apply (proj2 (local_read_keeps_displayed_list
                    (Sample.offline (Some "[]")) "u-17" Sample.signed_in_after_load)).
    discriminate.
Defined.

(** ** Remove and clear *)

Lemma removeFromHistory_failure (env : Env) (entryId : string) (c : Component) :
  write_error (removeVideoFromHistory env entryId) <> None ->
  removeFromHistory env entryId c =
  (Normal tt,
   mkComponent (history c)
     (effects c ++
      [CallRemoveVideoFromHistory entryId;
       ShowToast (mkToast "Error" "Failed to remove video from history"
                    (Some "destructive"))])).
Proof.
  intros Hfail. unfold removeFromHistory. run_handler.
  destruct (write_error (removeVideoFromHistory env entryId)); [|contradiction].
  run_handler. rewrite <- app_assoc. reflexivity.
Qed.

Lemma removeFromHistory_success (env : Env) (entryId : string) (c : Component) :
  write_error (removeVideoFromHistory env entryId) = None ->
  removeFromHistory env entryId c =
  (Normal tt,
   mkComponent
     (filter (fun item => negb (String.eqb (id item) entryId)) (history c))
     (effects c ++
      [CallRemoveVideoFromHistory entryId;
       ShowToast (mkToast "Removed from History"
                    "Video removed from your history" None)])).
Proof.
  intros Hok. unfold removeFromHistory. run_handler.
  rewrite Hok. run_handler. rewrite <- app_assoc. reflexivity.
Qed.

Lemma clearHistory_failure (env : Env) (uid : string) (c : Component) :
  write_error (clearVideoHistory env uid) <> None ->
  clearHistory env uid c =
  (Normal tt,
   mkComponent (history c)
     (effects c ++
      [CallClearVideoHistory uid;
       ShowToast (mkToast "Error" "Failed to clear history"
                    (Some "destructive"))])).
Proof.
  intros Hfail. unfold clearHistory. run_handler.
  destruct (write_error (clearVideoHistory env uid)); [|contradiction].
  run_handler. rewrite <- app_assoc. reflexivity.
Qed.

Lemma clearHistory_success (env : Env) (uid : string) (c : Component) :
  write_error (clearVideoHistory env uid) = None ->
  clearHistory env uid c =
  (Normal tt,
   mkComponent []
     (effects c ++
      [CallClearVideoHistory uid;
       ShowToast (mkToast "History Cleared"
                    "Your video history has been cleared" None)])).
Proof.
  intros Hok. unfold clearHistory. run_handler.
  rewrite Hok. run_handler. rewrite <- app_assoc. reflexivity.
Qed.

#[local] Arguments removeFromHistory : simpl never.
#[local] Arguments clearHistory : simpl never.

(** A filter whose test holds of every element keeps the list. *)
Lemma filter_keeps_all {A : Type} (test : A -> bool) (l : list A) :
  (forall x, In x l -> test x = true) -> filter test l = l.
Proof.
  induction l as [|x l IH]; intros Hall; cbn; [reflexivity|].
  rewrite (Hall x (or_introl eq_refl)).
  f_equal. apply IH. intros y Hy. apply Hall. right. exact Hy.
Qed.

Lemma other_id_test (item : HistoryItem) (entryId : string) :
  negb (String.eqb (id item) entryId) = true <-> id item <> entryId.
Proof.
  destruct (String.eqb_spec (id item) entryId); cbn; split; congruence.
Qed.

(** Under unique ids, filtering out the id of an entry deletes that
    one entry where it stands. *)
Lemma filter_out_unique_id (e : HistoryItem) (before after : list HistoryItem) :
  NoDup (map id (before ++ e :: after)) ->
  filter (fun item => negb (String.eqb (id item) (id e))) (before ++ e :: after)
  = before ++ after.
Proof.
  intros Hunique.
  rewrite map_app in Hunique; cbn in Hunique.
  apply NoDup_remove_2 in Hunique.
  rewrite filter_app; cbn.
  rewrite String.eqb_refl; cbn.
  rewrite !filter_keeps_all; [reflexivity| |].
  - intros x Hx. apply other_id_test. intros Hsame.
    apply Hunique. apply in_or_app. right. rewrite <- Hsame. now apply in_map.
  - intros x Hx. apply other_id_test. intros Hsame.
    apply Hunique. apply in_or_app. left. rewrite <- Hsame. now apply in_map.
Qed.

(** C2: when [removeVideoFromHistory] returns an error, and likewise
    when [clearVideoHistory] does, the handler leaves the in-memory
    list as it was; all it does is show one failure toast. *)
Theorem write_failure_leaves_list_unchanged
        (env : Env) (entryId uid : string) (c : Component) :
  (write_error (removeVideoFromHistory env entryId) <> None ->
   history (exec (removeFromHistory env entryId) c) = history c /\
   effects (exec (removeFromHistory env entryId) c)
     = effects c ++
       [CallRemoveVideoFromHistory entryId;
        ShowToast (mkToast "Error" "Failed to remove video from history"
                     (Some "destructive"))]) /\
  (write_error (clearVideoHistory env uid) <> None ->
   history (exec (clearHistory env uid) c) = history c /\
   effects (exec (clearHistory env uid) c)
     = effects c ++
       [CallClearVideoHistory uid;
        ShowToast (mkToast "Error" "Failed to clear history"
                     (Some "destructive"))]).
Proof.
  split; intros Hfail; unfold exec.
  - rewrite (removeFromHistory_failure env entryId c Hfail). split; reflexivity.
  - rewrite (clearHistory_failure env uid c Hfail). split; reflexivity.
Qed.

Lemma write_failure_leaves_list_unchanged_witness :
  write_error (removeVideoFromHistory (Sample.offline None) "v2") <> None /\
  write_error (clearVideoHistory (Sample.offline None) "u-17") <> None /\
  history (exec (removeFromHistory (Sample.offline None) "v2")
             (Sample.showing [Sample.talk; Sample.lecture]))
    = [Sample.talk; Sample.lecture] /\
  history (exec (clearHistory (Sample.offline None) "u-17")
             (Sample.showing [Sample.talk; Sample.lecture]))
    = [Sample.talk; Sample.lecture].
Proof.
  split; [discriminate|]. split; [discriminate|].
  split.
  - apply (proj1 (write_failure_leaves_list_unchanged (Sample.offline None)
                    "v2" "u-17" (Sample.showing [Sample.talk; Sample.lecture]))).
    discriminate.
  - apply (proj2 (write_failure_leaves_list_unchanged (Sample.offline None)
                    "v2" "u-17" (Sample.showing [Sample.talk; Sample.lecture]))).
    discriminate.
Defined.

(** C3: when [removeFromHistory (id e)] succeeds for an entry [e] of
    the list, the new list is the old one filtered on [id <> id e]:
    the entries with another id are all kept, in their order, and none
    with that id remains.  With ids unique in the list, as the data
    model has them, that is the old list with the one entry [e] taken
    out where it stood. *)
Theorem remove_success_deletes_that_entry
        (env : Env) (e : HistoryItem) (c : Component) :
  In e (history c) ->
  write_error (removeVideoFromHistory env (id e)) = None ->
  history (exec (removeFromHistory env (id e)) c)
    = filter (fun item => negb (String.eqb (id item) (id e))) (history c) /\
  (forall x, In x (history (exec (removeFromHistory env (id e)) c)) <->
             In x (history c) /\ id x <> id e) /\
  (NoDup (map id (history c)) ->
   exists before after,
     history c = before ++ e :: after /\
     history (exec (removeFromHistory env (id e)) c) = before ++ after).
Proof.
  intros Hin Hok. unfold exec.
  rewrite (removeFromHistory_success env (id e) c Hok); cbn.
  split; [reflexivity|]. split.
  - intros x. rewrite filter_In, other_id_test. reflexivity.
  - intros Hunique.
    destruct (in_split e (history c) Hin) as [before [after Hsplit]].
    exists before, after. split; [exact Hsplit|].
    rewrite Hsplit in Hunique |- *.
    apply filter_out_unique_id. exact Hunique.
Qed.

Lemma remove_success_deletes_that_entry_witness :
  In Sample.lecture [Sample.talk; Sample.lecture; Sample.clip] /\
  write_error (removeVideoFromHistory (Sample.online None None) (id Sample.lecture))
    = None /\
  NoDup (map id [Sample.talk; Sample.lecture; Sample.clip]) /\
  history (exec (removeFromHistory (Sample.online None None) (id Sample.lecture))
             (Sample.showing [Sample.talk; Sample.lecture; Sample.clip]))
    = [Sample.talk; Sample.clip] /\
  exists before after,
    [Sample.talk; Sample.lecture; Sample.clip] = before ++ Sample.lecture :: after /\
    history (exec (removeFromHistory (Sample.online None None) (id Sample.lecture))
               (Sample.showing [Sample.talk; Sample.lecture; Sample.clip]))
      = before ++ after.
Proof.
  assert (Hin : In Sample.lecture [Sample.talk; Sample.lecture; Sample.clip])
    by (right; left; reflexivity).
  assert (Hunique : NoDup (map id [Sample.talk; Sample.lecture; Sample.clip])).
  { repeat constructor; cbn; intuition discriminate. }
  split; [exact Hin|]. split; [reflexivity|]. split; [exact Hunique|].
  destruct (remove_success_deletes_that_entry (Sample.online None None)
              Sample.lecture
              (Sample.showing [Sample.talk; Sample.lecture; Sample.clip])
              Hin eq_refl) as [Hfilter [_ Hsplit]].
  split; [exact Hfilter | exact (Hsplit Hunique)].
Defined.

Lemma filter_again {A : Type} (test : A -> bool) (l : list A) :
  filter test (filter test l) = filter test l.
Proof.
  apply filter_keeps_all. intros x Hx. now apply filter_In in Hx.
Qed.

Lemma filter_of_rejected {A : Type} (test : A -> bool) (l : list A) :
  filter test (filter (fun x => negb (test x)) l) = [].
Proof.
  induction l as [|x l IH]; cbn; [reflexivity|].
  destruct (test x) eqn:Htest; cbn; [exact IH|].
  rewrite Htest. exact IH.
Qed.

(** C9: on the remote store of the specification, reached by both
    calls, two [clearHistory] calls in a row both succeed.  The first
    is answered without error and leaves the store without a row of the
    user; the second then runs against that already-empty store, is
    answered without error all the same and leaves the store as it is.
    Each shows the success toast (no failure toast), and the in-memory
    list is empty after the first and after the second call.  And
    whatever the remote store is, a [clearHistory] that is answered
    without error leaves the in-memory list empty. *)
Theorem clear_twice_on_remote_store
        (base : Env) (store : RemoteStore) (uid : string) (c : Component) :
  write_error (clearVideoHistory (env_on base None store) uid) = None /\
  history (exec (clearHistory (env_on base None store) uid) c) = [] /\
  data (getVideoHistory
          (env_on base None (snd (spec_clearByUser None store uid))) uid)
    = Some [] /\
  write_error
    (clearVideoHistory
       (env_on base None (snd (spec_clearByUser None store uid))) uid) = None /\
  snd (spec_clearByUser None (snd (spec_clearByUser None store uid)) uid)
    = snd (spec_clearByUser None store uid) /\
  history
    (exec (clearHistory
             (env_on base None (snd (spec_clearByUser None store uid))) uid)
       (exec (clearHistory (env_on base None store) uid) c)) = [] /\
  effects
    (exec (clearHistory
             (env_on base None (snd (spec_clearByUser None store uid))) uid)
       (exec (clearHistory (env_on base None store) uid) c))
    = effects c ++
      [CallClearVideoHistory uid;
       ShowToast (mkToast "History Cleared"
                    "Your video history has been cleared" None);
       CallClearVideoHistory uid;
       ShowToast (mkToast "History Cleared"
                    "Your video history has been cleared" None)] /\
  (forall env,
     write_error (clearVideoHistory env uid) = None ->
     history (exec (clearHistory env uid) c) = []).
Proof.
  assert (Hfirst : write_error (clearVideoHistory (env_on base None store) uid) = None)
    by reflexivity.
  assert (Hsecond : write_error
                      (clearVideoHistory
                         (env_on base None (snd (spec_clearByUser None store uid)))
                         uid) = None)
    by reflexivity.
  split; [exact Hfirst|].
  split; [unfold exec; now rewrite (clearHistory_success _ uid c Hfirst)|].
  split; [cbn; f_equal; apply filter_of_rejected|].
  split; [exact Hsecond|].
  split; [cbn; f_equal; apply filter_again|].
  unfold exec.
  rewrite (clearHistory_success _ uid c Hfirst); cbn.
  rewrite (clearHistory_success _ uid _ Hsecond); cbn.
  rewrite <- app_assoc.
  split; [reflexivity|]. split; [reflexivity|].
  intros env Hok. now rewrite (clearHistory_success env uid c Hok).
Qed.

Lemma clear_twice_on_remote_store_witness :
  write_error (clearVideoHistory (Sample.online None None) "u-17") = None /\
  history (exec (clearHistory (Sample.online None None) "u-17")
             Sample.signed_in_after_load) = [] /\
  history
    (exec (clearHistory
             (env_on (Sample.offline None) None
                (snd (spec_clearByUser None
                        (mkRemoteStore [Sample.talk; Sample.lecture]) "u-17")))
             "u-17")
       (exec (clearHistory
                (env_on (Sample.offline None) None
                   (mkRemoteStore [Sample.talk; Sample.lecture])) "u-17")
          Sample.signed_in_after_load)) = [].
Proof.
  split; [reflexivity|].
  split.
  - apply (clear_twice_on_remote_store (Sample.offline None)
             (mkRemoteStore [Sample.talk; Sample.lecture]) "u-17"
             Sample.signed_in_after_load).
    reflexivity.
  - apply (clear_twice_on_remote_store (Sample.offline None)
             (mkRemoteStore [Sample.talk; Sample.lecture]) "u-17"
             Sample.signed_in_after_load).
Defined.

(** ** Reprocess *)

(** C7: [handleReprocess] on an item dispatches exactly one
    [reprocessVideo] event, whose detail is the item's [url] and
    [language], shows its toast, and leaves the in-memory list as it
    was. *)
Theorem reprocess_dispatches_one_event (item : HistoryItem) (c : Component) :
  history (exec (handleReprocess item) c) = history c /\
  completion (handleReprocess item) c = Normal tt /\
  filter is_dispatch (log_of (handleReprocess item) (history c))
    = [DispatchEvent "reprocessVideo" (mkDetail (url item) (language item))] /\
  effects (exec (handleReprocess item) c)
    = effects c ++
      [DispatchEvent "reprocessVideo" (mkDetail (url item) (language item));
       ShowToast (mkToast "Reprocessing Video"
                    ("Reprocessing " ++ dquote ++ title item ++ dquote)%string
                    None)].
Proof.
  unfold exec, completion, log_of, handleReprocess. run_handler.
  rewrite <- app_assoc. repeat split.
Qed.

(** ** External open *)

Lemma prefix_iff (pat s : string) :
  String.prefix pat s = true <-> exists after, s = (pat ++ after)%string.
Proof.
  revert s. induction pat as [|ch pat IH]; intros s.
  - split; [intros _; exists s; reflexivity | intros _; destruct s; reflexivity].
  - destruct s as [|ch' s]; cbn;
      [split; [discriminate | intros [after H]; discriminate]|].
    destruct (ascii_dec ch ch') as [-> | Hdiff].
    + rewrite IH. split; intros [after H]; exists after; congruence.
    + split; [discriminate | intros [after H]; congruence].
Qed.

(** [includes] decides the substring relation. *)
Lemma includes_iff_contains (u pat : string) :
  includes u pat = true <-> contains u pat.
Proof.
  unfold contains. induction u as [|ch u IH]; cbn -[String.prefix].
  - rewrite orb_false_r, prefix_iff. split.
    + intros [after H]. exists EmptyString, after. exact H.
    + intros [[|ch before] [after H]]; [exists after; exact H | discriminate].
  - rewrite orb_true_iff, prefix_iff, IH. split.
    + intros [[after H] | [before [after H]]].
      * exists EmptyString, after. exact H.
      * exists (String ch before), after. cbn. now rewrite H.
    + intros [[|ch' before] [after H]].
      * left. exists after. exact H.
      * right. exists before, after. cbn in H. congruence.
Qed.

Lemma handleOpenYoutubeVideo_test (u : string) :
  (negb (String.eqb u "") && includes u "youtube.com") || includes u "youtu.be"
  = includes u "youtube.com" || includes u "youtu.be".
Proof.
  destruct u as [|ch u]; reflexivity.
Qed.

(** C8, as stated, fails: a URL on another host that only carries
    [youtube.com] in its query string is opened. *)
Lemma external_open_counterexample :
  spec_url_host Sample.disguised_url = "evil.example" /\
  spec_host_whitelisted Sample.disguised_url = false /\
  effects (exec (handleOpenYoutubeVideo Sample.disguised_url) mounted)
    = [WindowOpen Sample.disguised_url "_blank"].
Proof.
  repeat split.
Qed.

(** C8 (amended): [handleOpenYoutubeVideo] opens the URL in a new tab
    exactly when the URL text contains [youtube.com] or [youtu.be]
    somewhere (the test is on the whole string, not on its host); for a
    URL that contains neither, nothing is opened.  The in-memory list
    is not touched. *)
Theorem external_open_iff_url_contains_pattern (u : string) (c : Component) :
  (contains u "youtube.com" \/ contains u "youtu.be" ->
   effects (exec (handleOpenYoutubeVideo u) c)
     = effects c ++ [WindowOpen u "_blank"]) /\
  (~ contains u "youtube.com" /\ ~ contains u "youtu.be" ->
   effects (exec (handleOpenYoutubeVideo u) c) = effects c) /\
  history (exec (handleOpenYoutubeVideo u) c) = history c.
Proof.
  unfold exec, handleOpenYoutubeVideo.
  rewrite handleOpenYoutubeVideo_test.
  rewrite <- !includes_iff_contains.
  destruct (includes u "youtube.com"), (includes u "youtu.be"); cbn;
    repeat split; try reflexivity;
    intros H; exfalso; intuition congruence.
Qed.

Lemma external_open_iff_url_contains_pattern_witness :
  contains (url Sample.lecture) "youtu.be" /\
  (~ contains (url Sample.clip) "youtube.com" /\
   ~ contains (url Sample.clip) "youtu.be") /\
  effects (exec (handleOpenYoutubeVideo (url Sample.lecture)) mounted)
    = [WindowOpen (url Sample.lecture) "_blank"] /\
  effects (exec (handleOpenYoutubeVideo (url Sample.clip)) mounted) = [].
Proof.
  assert (Hlecture : contains (url Sample.lecture) "youtu.be").
  { exists "https://", "/xyz". reflexivity. }
  assert (Hclip : ~ contains (url Sample.clip) "youtube.com" /\
                  ~ contains (url Sample.clip) "youtu.be").
  { rewrite <- !includes_iff_contains. split; discriminate. }
  split; [exact Hlecture|]. split; [exact Hclip|].
  split.
  - apply (proj1 (external_open_iff_url_contains_pattern (url Sample.lecture) mounted)).
    right. exact Hlecture.
  - apply (proj1 (proj2 (external_open_iff_url_contains_pattern (url Sample.clip) mounted))).
    exact Hclip.
Defined.

(** ** More on loading *)

(** Running [loadHistory] always returns, with the list and the log
    that [loaded_list] and [loaded_log] compute. *)
Lemma loadHistory_run (env : Env) (uid : string) (c : Component) :
  loadHistory env uid c =
  (Normal tt,
   mkComponent (loaded_list env uid (history c))
     (effects c ++ loaded_log env uid)).
Proof.
  unfold loaded_list, loaded_log.
  destruct (String.eqb_spec uid "anonymous") as [-> | Hauth].
  - rewrite loadHistory_anonymous, loadFromLocalStorage_run. reflexivity.
  - destruct (fetch_error (getVideoHistory env uid)) as [e|] eqn:Herr.
    + rewrite (loadHistory_remote_error env uid e c Hauth Herr).
      rewrite loadFromLocalStorage_run; cbn.
      rewrite <- app_assoc. reflexivity.
    + destruct (data (getVideoHistory env uid)) as [[|row rows]|] eqn:Hdata.
      * rewrite (loadHistory_remote_empty env uid c Hauth Herr (or_intror Hdata)).
        rewrite loadFromLocalStorage_run; cbn.
        rewrite <- app_assoc. reflexivity.
      * apply (loadHistory_remote_rows env uid c row rows Hauth Herr Hdata).
      * rewrite (loadHistory_remote_empty env uid c Hauth Herr (or_introl Hdata)).
        rewrite loadFromLocalStorage_run; cbn.
        rewrite <- app_assoc. reflexivity.
Qed.

Lemma loaded_list_again (env : Env) (uid : string) (h : list HistoryItem) :
  loaded_list env uid (loaded_list env uid h) = loaded_list env uid h.
Proof.
  unfold loaded_list.
  destruct (String.eqb uid "anonymous"),
           (fetch_error (getVideoHistory env uid)),
           (data (getVideoHistory env uid)) as [[|row rows]|],
           (spec_LocalCache_read env); reflexivity.
Qed.

(** The slot holds a non-empty array: that is what the local read gives. *)
Lemma slot_array_read (env : Env) (text : string)
      (row : HistoryItem) (rows : list HistoryItem) :
  localStorage_getItem env "videoHistory" = Some text ->
  text <> "" ->
  JSON_parse env text = Normal (JArray (row :: rows)) ->
  spec_LocalCache_read env = row :: rows.
Proof.
  intros Hslot Hfull Hparse. unfold spec_LocalCache_read. rewrite Hslot.
  destruct text as [|ch rest]; [contradiction|]. cbn. rewrite Hparse. reflexivity.
Qed.

(** X1: [loadHistory] returns normally for every user id, whatever the
    remote store answers, whatever the local slot holds and whether or
    not [JSON.parse] throws: nothing escapes to the caller. *)
Theorem load_never_throws (env : Env) (uid : string) (c : Component) :
  completion (loadHistory env uid) c = Normal tt.
Proof.
  unfold completion. rewrite loadHistory_run. reflexivity.
Qed.

(** X2: when the remote store answers an authenticated user without
    error and with at least one row, those rows, in their order, become
    the list whatever was shown before; the local slot is not read, and
    neither its content nor [JSON.parse] has any influence. *)
Theorem remote_rows_replace_list
        (env : Env) (uid : string) (c : Component)
        (row : HistoryItem) (rows : list HistoryItem) :
  uid <> "anonymous" ->
  fetch_error (getVideoHistory env uid) = None ->
  data (getVideoHistory env uid) = Some (row :: rows) ->
  history (exec (loadHistory env uid) c) = row :: rows /\
  effects (exec (loadHistory env uid) c) = effects c ++ [CallGetVideoHistory uid] /\
  (forall slot parser,
     loadHistory
       (mkEnv (getVideoHistory env) (removeVideoFromHistory env)
          (clearVideoHistory env) slot parser) uid c
     = loadHistory env uid c).
Proof.
  intros Hauth Herr Hdata. unfold exec.
  rewrite (loadHistory_remote_rows env uid c row rows Hauth Herr Hdata).
  repeat split.
  intros slot parser.
  apply loadHistory_remote_rows; assumption.
Qed.

Lemma remote_rows_replace_list_witness :
  "u-17" <> "anonymous" /\
  fetch_error (getVideoHistory
                 (Sample.online (Some [Sample.lecture; Sample.clip])
                    (Some Sample.talk_json)) "u-17") = None /\
  history (exec (loadHistory
                   (Sample.online (Some [Sample.lecture; Sample.clip])
                      (Some Sample.talk_json)) "u-17")
             Sample.anonymous_after_load)
    = [Sample.lecture; Sample.clip].
Proof.
  split; [discriminate|]. split; [reflexivity|].
  apply (remote_rows_replace_list
           (Sample.online (Some [Sample.lecture; Sample.clip])
              (Some Sample.talk_json)) "u-17" Sample.anonymous_after_load
           Sample.lecture [Sample.clip]);
    [discriminate | reflexivity | reflexivity].
Defined.

(** X3: loading twice against the same outside world shows the same
    list as loading once, from any prior list: a repeated refresh
    changes nothing further. *)
Theorem reload_is_idempotent (env : Env) (uid : string) (c : Component) :
  history (exec (loadHistory env uid) (exec (loadHistory env uid) c))
  = history (exec (loadHistory env uid) c).
Proof.
  unfold exec. rewrite !loadHistory_run; cbn. apply loaded_list_again.
Qed.

(** X4: a load is silent: all it logs is at most one [getVideoHistory]
    call (for the id it was given), reads of the [videoHistory] slot
    and [console.error] lines; it shows no toast, dispatches no event,
    opens no window and makes no remove or clear call. *)
Theorem load_is_silent (env : Env) (uid : string) (c : Component) :
  exists log,
    effects (exec (loadHistory env uid) c) = effects c ++ log /\
    Forall (fun e => e = CallGetVideoHistory uid \/
                     e = LocalStorageGetItem "videoHistory" \/
                     is_console_error e = true) log /\
    length (filter is_remote_call log) <= 1 /\
    length (filter is_local_read log) <= 1.
Proof.
  exists (loaded_log env uid). unfold exec. rewrite loadHistory_run.
  split; [reflexivity|].
  assert (Hfail : Forall (fun e => e = CallGetVideoHistory uid \/
                                   e = LocalStorageGetItem "videoHistory" \/
                                   is_console_error e = true)
                    (parse_failure_log env)).
  { apply Forall_forall. intros e He. right. right.
    pose proof (parse_failure_log_console env) as Hall.
    rewrite forallb_forall in Hall. now apply Hall. }
  assert (Hlocal : filter is_local_read (parse_failure_log env) = []).
  { unfold parse_failure_log.
    destruct (truthy _) as [text|]; [destruct (JSON_parse env text)|]; reflexivity. }
  unfold loaded_log.
  destruct (String.eqb uid "anonymous"),
           (fetch_error (getVideoHistory env uid)),
           (data (getVideoHistory env uid)) as [[|row rows]|]; cbn;
    rewrite ?parse_failure_log_local, ?Hlocal; cbn;
    (split; [repeat (constructor; auto) | split; lia]).
Qed.

(** X5: [loadHistory] for the [userId] of a user context calls the
    remote store exactly when the user has an id that is neither empty
    nor ["anonymous"], and then once, with exactly that id. *)
Theorem load_fetches_for_real_ids_only
        (env : Env) (user : option Auth.User) (c : Component) :
  exists log,
    effects (exec (loadHistory env (userId user)) c) = effects c ++ log /\
    filter is_remote_call log =
    match user with
    | Some u =>
        if String.eqb (Auth.id u) "" || String.eqb (Auth.id u) "anonymous"
        then []
        else [CallGetVideoHistory (Auth.id u)]
    | None => []
    end.
Proof.
  exists (loaded_log env (userId user)). unfold exec. rewrite loadHistory_run.
  split; [reflexivity|].
  unfold loaded_log, userId.
  destruct user as [u|]; cbn; [|apply parse_failure_log_local].
  destruct (String.eqb (Auth.id u) ""); cbn; [apply parse_failure_log_local|].
  destruct (String.eqb (Auth.id u) "anonymous"); cbn;
    [apply parse_failure_log_local|].
  destruct (fetch_error (getVideoHistory env (Auth.id u))),
           (data (getVideoHistory env (Auth.id u))) as [[|row rows]|]; cbn;
    rewrite ?parse_failure_log_local; reflexivity.
Qed.

(** ** More on remove and clear *)

Lemma filter_twice {A : Type} (first second : A -> bool) (l : list A) :
  filter second (filter first l) = filter (fun x => first x && second x) l.
Proof.
  induction l as [|x l IH]; cbn; [reflexivity|].
  destruct (first x); cbn; [destruct (second x)|]; now rewrite IH.
Qed.

Lemma filter_keeps_unique_ids (keep : HistoryItem -> bool) (l : list HistoryItem) :
  NoDup (map id l) -> NoDup (map id (filter keep l)).
Proof.
  induction l as [|x l IH]; cbn; intros Hunique; [constructor|].
  apply NoDup_cons_iff in Hunique as [Hfresh Hrest].
  destruct (keep x); cbn; [|now apply IH].
  constructor; [|now apply IH].
  intros Hin. apply Hfresh.
  apply in_map_iff in Hin as [y [Hid Hy]].
  apply filter_In in Hy as [Hy _].
  rewrite <- Hid. now apply in_map.
Qed.

Lemma filter_drops_shorter {A : Type} (keep : A -> bool) (x : A) (l : list A) :
  In x l -> keep x = false -> length (filter keep l) < length l.
Proof.
  induction l as [|y l IH]; cbn; intros Hin Hdrop; [contradiction|].
  destruct Hin as [-> | Hin].
  - rewrite Hdrop. pose proof (filter_length_le keep l). lia.
  - specialize (IH Hin Hdrop). destruct (keep y); cbn; lia.
Qed.

(** Every remove ends with one toast after its one remote call. *)
Lemma removeFromHistory_run (env : Env) (entryId : string) (c : Component) :
  exists shown kept,
    removeFromHistory env entryId c
    = (Normal tt,
       mkComponent kept
         (effects c ++ [CallRemoveVideoFromHistory entryId; ShowToast shown])) /\
    (variant shown = Some "destructive" <->
     write_error (removeVideoFromHistory env entryId) <> None) /\
    (kept = history c \/
     kept = filter (fun item => negb (String.eqb (id item) entryId)) (history c)).
Proof.
  destruct (write_error (removeVideoFromHistory env entryId)) as [e|] eqn:Hanswer.
  - eexists _, _. split; [apply removeFromHistory_failure; congruence|].
    split; [|left; reflexivity]. cbn. split; congruence.
  - eexists _, _. split; [apply removeFromHistory_success; assumption|].
    split; [|right; reflexivity]. cbn. split; congruence.
Qed.

Lemma clearHistory_run (env : Env) (uid : string) (c : Component) :
  exists shown kept,
    clearHistory env uid c
    = (Normal tt,
       mkComponent kept
         (effects c ++ [CallClearVideoHistory uid; ShowToast shown])) /\
    (variant shown = Some "destructive" <->
     write_error (clearVideoHistory env uid) <> None) /\
    (kept = history c \/ kept = []).
Proof.
  destruct (write_error (clearVideoHistory env uid)) as [e|] eqn:Hanswer.
  - eexists _, _. split; [apply clearHistory_failure; congruence|].
    split; [|left; reflexivity]. cbn. split; congruence.
  - eexists _, _. split; [apply clearHistory_success; assumption|].
    split; [|right; reflexivity]. cbn. split; congruence.
Qed.

(** X6: a successful remove of an id that no entry of the list carries
    leaves the list as it was; the remote call is made and the
    "Removed from History" toast is shown all the same. *)
Theorem remove_of_unknown_id_keeps_list
        (env : Env) (entryId : string) (c : Component) :
  write_error (removeVideoFromHistory env entryId) = None ->
  (forall item, In item (history c) -> id item <> entryId) ->
  history (exec (removeFromHistory env entryId) c) = history c /\
  effects (exec (removeFromHistory env entryId) c)
    = effects c ++
      [CallRemoveVideoFromHistory entryId;
       ShowToast (mkToast "Removed from History"
                    "Video removed from your history" None)].
Proof.
  intros Hok Hunknown. unfold exec.
  rewrite (removeFromHistory_success env entryId c Hok); cbn.
  split; [|reflexivity].
  apply filter_keeps_all. intros item Hitem.
  apply other_id_test. now apply Hunknown.
Qed.

Lemma remove_of_unknown_id_keeps_list_witness :
  write_error (removeVideoFromHistory (Sample.online None None) "v9") = None /\
  (forall item, In item [Sample.talk; Sample.lecture] -> id item <> "v9") /\
  history (exec (removeFromHistory (Sample.online None None) "v9")
             (Sample.showing [Sample.talk; Sample.lecture]))
    = [Sample.talk; Sample.lecture].
Proof.
  assert (Hunknown : forall item, In item [Sample.talk; Sample.lecture] ->
                                  id item <> "v9").
  { intros item [<- | [<- | []]]; discriminate. }
  split; [reflexivity|]. split; [exact Hunknown|].
  apply (remove_of_unknown_id_keeps_list (Sample.online None None) "v9"
           (Sample.showing [Sample.talk; Sample.lecture]) eq_refl Hunknown).
Defined.

(** The handlers are their part before the [await] followed by their
    part after it. *)
Lemma removeFromHistory_split (env : Env) (entryId : string) (c : Component) :
  removeFromHistory env entryId c
  = removeFromHistory_resume (history c) entryId
      (removeVideoFromHistory env entryId)
      (exec (emit (CallRemoveVideoFromHistory entryId)) c).
Proof.
  unfold removeFromHistory, removeFromHistory_resume, exec.
  unfold bind at 1 2; cbn.
  destruct (write_error (removeVideoFromHistory env entryId)); reflexivity.
Qed.

Lemma clearHistory_split (env : Env) (uid : string) (c : Component) :
  clearHistory env uid c
  = clearHistory_resume (clearVideoHistory env uid)
      (exec (emit (CallClearVideoHistory uid)) c).
Proof.
  unfold clearHistory, clearHistory_resume, exec.
  unfold bind at 1; cbn.
  destruct (write_error (clearVideoHistory env uid)); reflexivity.
Qed.

(** A click whose remote call is answered before anything else happens
    is the whole handler. *)
Lemma uninterrupted_click (env : Env) (uid : string) (b : Click) (c : Component) :
  view (session uid (Clicked b :: answered_at_once env uid b) (start c))
  = exec (onClick env uid b) c.
Proof.
  destruct b as [|item|item|item]; reflexivity.
Qed.

Lemma removeFromHistory_resume_success
      (closed_over : list HistoryItem) (entryId : string) (answer : WriteResult)
      (c : Component) :
  write_error answer = None ->
  history (exec (removeFromHistory_resume closed_over entryId answer) c)
  = filter (fun item => negb (String.eqb (id item) entryId)) closed_over.
Proof.
  intros Hok. unfold removeFromHistory_resume. rewrite Hok. reflexivity.
Qed.

(** X7: two successful removals commute when they do not overlap, that
    is when the second button is clicked on the render that follows the
    answer to the first: both orders leave the list filtered of both
    ids, and a second removal of the same id changes nothing.  When
    they overlap they do not commute: both handlers closed over the
    list of the render they were clicked on, so the list ends as that
    list without the entry whose answer came last only. *)
Theorem removals_commute_unless_overlapping
        (uid : string) (a b : HistoryItem) (ok_a ok_b : WriteResult)
        (c : Component) :
  write_error ok_a = None ->
  write_error ok_b = None ->
  history (view (session uid [Clicked (ClickRemove a); Answered 0 ok_a;
                              Clicked (ClickRemove b); Answered 0 ok_b] (start c)))
    = filter (fun item => negb (String.eqb (id item) (id a))
                          && negb (String.eqb (id item) (id b))) (history c) /\
  history (view (session uid [Clicked (ClickRemove b); Answered 0 ok_b;
                              Clicked (ClickRemove a); Answered 0 ok_a] (start c)))
    = filter (fun item => negb (String.eqb (id item) (id a))
                          && negb (String.eqb (id item) (id b))) (history c) /\
  history (view (session uid [Clicked (ClickRemove a); Answered 0 ok_a;
                              Clicked (ClickRemove a); Answered 0 ok_b] (start c)))
    = history (view (session uid [Clicked (ClickRemove a); Answered 0 ok_a]
                       (start c))) /\
  history (view (session uid [Clicked (ClickRemove a); Clicked (ClickRemove b);
                              Answered 0 ok_a; Answered 0 ok_b] (start c)))
    = filter (fun item => negb (String.eqb (id item) (id b))) (history c) /\
  history (view (session uid [Clicked (ClickRemove a); Clicked (ClickRemove b);
                              Answered 1 ok_b; Answered 0 ok_a] (start c)))
    = filter (fun item => negb (String.eqb (id item) (id a))) (history c).
Proof.
  intros Ha Hb.
  unfold session, start; cbn [fold_left step view in_flight app nth_error
                               drop_nth resume].
  rewrite !removeFromHistory_resume_success by assumption.
  cbn [exec emit snd history].
  rewrite ?filter_twice.
  repeat split.
  - apply filter_ext. intros item. apply andb_comm.
  - apply filter_ext. intros item. apply andb_diag.
Qed.

Lemma removals_commute_unless_overlapping_witness :
  write_error (mkWriteResult None) = None /\
  history (view (session "u-17"
                   [Clicked (ClickRemove Sample.talk);
                    Clicked (ClickRemove Sample.clip);
                    Answered 0 (mkWriteResult None);
                    Answered 0 (mkWriteResult None)]
                   (start (Sample.showing
                             [Sample.talk; Sample.lecture; Sample.clip]))))
    = [Sample.talk; Sample.lecture] /\
  history (view (session "u-17"
                   [Clicked (ClickRemove Sample.talk);
                    Clicked (ClickRemove Sample.clip);
                    Answered 1 (mkWriteResult None);
                    Answered 0 (mkWriteResult None)]
                   (start (Sample.showing
                             [Sample.talk; Sample.lecture; Sample.clip]))))
    = [Sample.lecture; Sample.clip] /\
  history (view (session "u-17"
                   [Clicked (ClickRemove Sample.talk);
                    Answered 0 (mkWriteResult None);
                    Clicked (ClickRemove Sample.clip);
                    Answered 0 (mkWriteResult None)]
                   (start (Sample.showing
                             [Sample.talk; Sample.lecture; Sample.clip]))))
    = [Sample.lecture].
Proof.
  split; [reflexivity|].
  destruct (removals_commute_unless_overlapping "u-17" Sample.talk Sample.clip
              (mkWriteResult None) (mkWriteResult None)
              (Sample.showing [Sample.talk; Sample.lecture; Sample.clip])
              eq_refl eq_refl)
    as [Hone_by_one [_ [_ [Hlast_b Hlast_a]]]].
  split; [exact Hlast_b|]. split; [exact Hlast_a | exact Hone_by_one].
Defined.

(** X8: remove and clear go to the remote store and nowhere else, for
    every user id, the sentinel ["anonymous"] included: each makes
    exactly one remote call (with the id it was given) followed by
    exactly one toast, which is the destructive one exactly when the
    remote store returned an error; neither reads the local slot, and
    what the slot holds or [JSON.parse] does has no influence. *)
Theorem writes_go_to_remote_only
        (env : Env) (uid entryId : string) (c : Component) :
  (exists shown,
     effects (exec (removeFromHistory env entryId) c)
       = effects c ++ [CallRemoveVideoFromHistory entryId; ShowToast shown] /\
     (variant shown = Some "destructive" <->
      write_error (removeVideoFromHistory env entryId) <> None)) /\
  (exists shown,
     effects (exec (clearHistory env uid) c)
       = effects c ++ [CallClearVideoHistory uid; ShowToast shown] /\
     (variant shown = Some "destructive" <->
      write_error (clearVideoHistory env uid) <> None)) /\
  (forall slot parser,
     removeFromHistory
       (mkEnv (getVideoHistory env) (removeVideoFromHistory env)
          (clearVideoHistory env) slot parser) entryId c
     = removeFromHistory env entryId c /\
     clearHistory
       (mkEnv (getVideoHistory env) (removeVideoFromHistory env)
          (clearVideoHistory env) slot parser) uid c
     = clearHistory env uid c).
Proof.
  split; [|split].
  - destruct (removeFromHistory_run env entryId c) as [shown [kept [Hrun [Hvariant _]]]].
    exists shown. unfold exec. rewrite Hrun. split; [reflexivity | exact Hvariant].
  - destruct (clearHistory_run env uid c) as [shown [kept [Hrun [Hvariant _]]]].
    exists shown. unfold exec. rewrite Hrun. split; [reflexivity | exact Hvariant].
  - intros slot parser. split; reflexivity.
Qed.

(** X9: clear and remove never touch the local slot, so what they took
    off the list comes back with the next load that reads the slot:
    after a successful clear (or remove), a load that is anonymous, or
    whose remote fetch fails or returns no rows, shows the non-empty
    array the slot holds. *)
Theorem local_entries_return_on_reload
        (env1 env2 : Env) (uid entryId text : string) (c : Component)
        (row : HistoryItem) (rows : list HistoryItem) :
  write_error (clearVideoHistory env1 uid) = None ->
  write_error (removeVideoFromHistory env1 entryId) = None ->
  (uid = "anonymous" \/
   fetch_error (getVideoHistory env2 uid) <> None \/
   data (getVideoHistory env2 uid) = None \/
   data (getVideoHistory env2 uid) = Some []) ->
  localStorage_getItem env2 "videoHistory" = Some text ->
  text <> "" ->
  JSON_parse env2 text = Normal (JArray (row :: rows)) ->
  history (exec (clearHistory env1 uid) c) = [] /\
  history (exec (loadHistory env2 uid) (exec (clearHistory env1 uid) c))
    = row :: rows /\
  history (exec (loadHistory env2 uid) (exec (removeFromHistory env1 entryId) c))
    = row :: rows.
Proof.
  intros Hclear Hremove Hlocal Hslot Hfull Hparse.
  pose proof (slot_array_read env2 text row rows Hslot Hfull Hparse) as Hread.
  assert (Hload : forall h, loaded_list env2 uid h = row :: rows).
  { intros h. unfold loaded_list. rewrite Hread.
    destruct (String.eqb_spec uid "anonymous") as [_ | Hauth]; [reflexivity|].
    destruct Hlocal as [Hanon | [Herr | [Hdata | Hdata]]].
    - contradiction.
    - destruct (fetch_error (getVideoHistory env2 uid)); [reflexivity|contradiction].
    - rewrite Hdata. destruct (fetch_error (getVideoHistory env2 uid)); reflexivity.
    - rewrite Hdata. destruct (fetch_error (getVideoHistory env2 uid)); reflexivity. }
  unfold exec.
  rewrite (clearHistory_success env1 uid c Hclear),
          (removeFromHistory_success env1 entryId c Hremove); cbn.
  rewrite !loadHistory_run; cbn. rewrite !Hload. repeat split.
Qed.

Lemma local_entries_return_on_reload_witness :
  write_error (clearVideoHistory (Sample.online None None) "anonymous") = None /\
  write_error (removeVideoFromHistory (Sample.online None None) "v1") = None /\
  localStorage_getItem (Sample.offline (Some Sample.talk_json)) "videoHistory"
    = Some Sample.talk_json /\
  JSON_parse (Sample.offline (Some Sample.talk_json)) Sample.talk_json
    = Normal (JArray [Sample.talk]) /\
  history (exec (loadHistory (Sample.offline (Some Sample.talk_json)) "anonymous")
             (exec (removeFromHistory (Sample.online None None) "v1")
                Sample.anonymous_after_load))
    = [Sample.talk].
Proof.
  split; [reflexivity|]. split; [reflexivity|].
  split; [reflexivity|]. split; [reflexivity|].
  apply (local_entries_return_on_reload
           (Sample.online None None) (Sample.offline (Some Sample.talk_json))
           "anonymous" "v1" Sample.talk_json Sample.anonymous_after_load
           Sample.talk []);
    [reflexivity | reflexivity | left; reflexivity | reflexivity
     | discriminate | reflexivity].
Defined.

(** ** The buttons of the card *)

Lemma handleOpenYoutubeVideo_keeps (u : string) (c : Component) :
  exists c', handleOpenYoutubeVideo u c = (Normal tt, c') /\ history c' = history c.
Proof.
  unfold handleOpenYoutubeVideo.
  destruct ((negb (String.eqb u "") && includes u "youtube.com")
            || includes u "youtu.be");
    eexists; split; reflexivity.
Qed.

Lemma in_drop_nth {A : Type} (x : A) (k : nat) (l : list A) :
  In x (drop_nth k l) -> In x l.
Proof.
  revert k. induction l as [|y l IH]; intros k; cbn; [destruct k; tauto|].
  destruct k as [|k]; cbn; [tauto|].
  intros [-> | Hx]; [now left | right; now apply (IH k)].
Qed.

Lemma filtered_from_self (h : list HistoryItem) : filtered_from h h.
Proof. exists (fun _ => true). symmetry. apply filter_true. Qed.

Lemma filtered_from_nil (h : list HistoryItem) : filtered_from h [].
Proof.
  exists (fun _ => false). induction h; [reflexivity | assumption].
Qed.

Lemma filtered_from_filter (h l : list HistoryItem) (test : HistoryItem -> bool) :
  filtered_from h l -> filtered_from h (filter test l).
Proof.
  intros [keep ->]. exists (fun item => keep item && test item).
  apply filter_twice.
Qed.

(** The rest of a handler leaves a part of the starting list on
    display, if the list it closed over was one. *)
Lemma resume_within (h0 : list HistoryItem) (p : Pending) (answer : WriteResult)
      (c : Component) :
  filtered_from h0 (history c) ->
  (forall closed_over entryId,
     p = PendingRemove closed_over entryId -> filtered_from h0 closed_over) ->
  filtered_from h0 (history (exec (resume p answer) c)).
Proof.
  intros Hshown Hclosed.
  destruct p as [closed_over entryId | uid]; cbn [resume].
  - unfold removeFromHistory_resume.
    destruct (write_error answer); [exact Hshown|].
    apply filtered_from_filter. now apply (Hclosed closed_over entryId).
  - unfold clearHistory_resume.
    destruct (write_error answer); [exact Hshown | apply filtered_from_nil].
Qed.

Lemma step_within (uid : string) (h0 : list HistoryItem) (s : Session) (ev : Step) :
  within h0 s -> within h0 (step uid s ev).
Proof.
  intros [Hshown Hwaiting].
  destruct ev as [[|item|item|item] | k answer]; cbn [step].
  - split; [exact Hshown|]. cbn [in_flight].
    intros closed_over entryId Hin.
    apply in_app_or in Hin as [Hin | [Hin | []]]; [|discriminate].
    now apply (Hwaiting closed_over entryId).
  - split; [|exact Hwaiting]. cbn [view].
    destruct (handleOpenYoutubeVideo_keeps (url item) (view s)) as [c' [Hrun Hsame]].
    unfold exec. rewrite Hrun. cbn. rewrite Hsame. exact Hshown.
  - split; [exact Hshown | exact Hwaiting].
  - split; [exact Hshown|]. cbn [in_flight].
    intros closed_over entryId Hin.
    apply in_app_or in Hin as [Hin | [Hin | []]].
    + now apply (Hwaiting closed_over entryId).
    + injection Hin as <- _. exact Hshown.
  - destruct (nth_error (in_flight s) k) as [p|] eqn:Hnth;
      [|split; assumption].
    split; cbn [view in_flight].
    + apply resume_within; [exact Hshown|].
      intros closed_over entryId ->.
      apply (Hwaiting closed_over entryId). now apply (nth_error_In _ k).
    + intros closed_over entryId Hin.
      apply (Hwaiting closed_over entryId). now apply (in_drop_nth _ k).
Qed.

Lemma session_within (uid : string) (h0 : list HistoryItem) (steps : list Step)
      (s : Session) :
  within h0 s -> within h0 (session uid steps s).
Proof.
  revert s. induction steps as [|ev steps IH]; intros s Hs; [exact Hs|].
  apply (IH (step uid s ev)). now apply step_within.
Qed.

Lemma row_button_iff (b : Click) (h : list HistoryItem) :
  In b (flat_map row_buttons h) <->
  exists item, In item h /\
               (b = ClickThumbnail item \/ b = ClickReprocess item \/
                b = ClickRemove item).
Proof.
  rewrite in_flat_map. split; intros [item [Hitem Hb]]; exists item;
    (split; [exact Hitem|]); cbn in *; intuition congruence.
Qed.

Lemma offered_row_button_on_display
      (b : Click) (item : HistoryItem) (h : list HistoryItem) :
  b = ClickThumbnail item \/ b = ClickReprocess item \/ b = ClickRemove item ->
  (In b (buttons h) <-> In item h).
Proof.
  intros Hkind.
  destruct h as [|first others]; [cbn; tauto|].
  cbn [buttons]. split.
  - intros [Hclear | Hrow]; [intuition congruence|].
    apply row_button_iff in Hrow as [shown [Hshown Hb]].
    assert (shown = item) by intuition congruence.
    congruence.
  - intros Hitem. right. apply row_button_iff. exists item. auto.
Qed.

Lemma offered_remove_on_display (item : HistoryItem) (h : list HistoryItem) :
  In (ClickRemove item) (buttons h) <-> In item h.
Proof. apply offered_row_button_on_display. auto. Qed.

(** X10: whatever buttons are clicked and whenever the remote store
    answers the remove and clear calls (in any order, with or without
    error, the handlers overlapping or not), the list on display is
    always a part of the list the session started with: that list
    filtered, so its order is kept, nothing is added or altered, it is
    never longer than at the start, and ids that were unique stay
    unique. *)
Theorem sessions_only_delete (uid : string) (steps : list Step) (c : Component) :
  (exists keep,
     history (view (session uid steps (start c))) = filter keep (history c)) /\
  (forall item,
     In item (history (view (session uid steps (start c)))) ->
     In item (history c)) /\
  length (history (view (session uid steps (start c)))) <= length (history c) /\
  (NoDup (map id (history c)) ->
   NoDup (map id (history (view (session uid steps (start c)))))).
Proof.
  assert (Hstart : within (history c) (start c)).
  { split; [apply filtered_from_self|]. intros closed_over entryId []. }
  destruct (session_within uid (history c) steps (start c) Hstart)
    as [[keep Hkeep] _].
  rewrite Hkeep.
  split; [exists keep; reflexivity|].
  split; [intros item Hitem; now apply filter_In in Hitem|].
  split; [apply filter_length_le | apply filter_keeps_unique_ids].
Qed.

Lemma sessions_only_delete_witness :
  NoDup (map id [Sample.talk; Sample.lecture; Sample.clip]) /\
  NoDup (map id
           (history
              (view (session "u-17"
                       [Clicked (ClickRemove Sample.talk);
                        Clicked (ClickReprocess Sample.lecture);
                        Clicked (ClickRemove Sample.clip);
                        Answered 0 (mkWriteResult None);
                        Clicked (ClickThumbnail Sample.lecture);
                        Answered 0 (mkWriteResult None)]
                       (start (Sample.showing
                                 [Sample.talk; Sample.lecture; Sample.clip])))))) /\
  history
    (view (session "u-17"
             [Clicked (ClickRemove Sample.talk);
              Clicked (ClickReprocess Sample.lecture);
              Clicked (ClickRemove Sample.clip);
              Answered 0 (mkWriteResult None);
              Clicked (ClickThumbnail Sample.lecture);
              Answered 0 (mkWriteResult None)]
             (start (Sample.showing [Sample.talk; Sample.lecture; Sample.clip]))))
    = [Sample.talk; Sample.lecture].
Proof.
  assert (Hunique : NoDup (map id [Sample.talk; Sample.lecture; Sample.clip])).
  { repeat constructor; cbn; intuition discriminate. }
  split; [exact Hunique|]. split; [|reflexivity].
  apply (sessions_only_delete "u-17"
           [Clicked (ClickRemove Sample.talk);
            Clicked (ClickReprocess Sample.lecture);
            Clicked (ClickRemove Sample.clip);
            Answered 0 (mkWriteResult None);
            Clicked (ClickThumbnail Sample.lecture);
            Answered 0 (mkWriteResult None)]
           (Sample.showing [Sample.talk; Sample.lecture; Sample.clip])).
  exact Hunique.
Defined.

(** X11: the card offers [Clear All] exactly when the list is not
    empty, and a thumbnail, a [Reprocess] and a remove button exactly
    for the entries of the list; with an empty list there is nothing to
    click. *)
Theorem buttons_match_list (h : list HistoryItem) :
  (In ClickClearAll (buttons h) <-> h <> []) /\
  (forall item,
     (In (ClickThumbnail item) (buttons h) <-> In item h) /\
     (In (ClickReprocess item) (buttons h) <-> In item h) /\
     (In (ClickRemove item) (buttons h) <-> In item h)) /\
  length (buttons h) = match h with [] => 0 | _ :: _ => 1 + 3 * length h end.
Proof.
  split; [|split].
  - destruct h as [|first others]; cbn; split; try tauto; discriminate.
  - intros item. repeat split; apply offered_row_button_on_display; auto.
  - assert (Hrows : forall l, length (flat_map row_buttons l) = 3 * length l).
    { induction l as [|item l IH]; [reflexivity|]. cbn. rewrite IH. lia. }
    destruct h as [|first others]; [reflexivity|].
    cbn [buttons]. change (length (ClickClearAll :: flat_map row_buttons (first :: others)))
      with (S (length (flat_map row_buttons (first :: others)))).
    rewrite Hrows. reflexivity.
Qed.

(** X12: a remove button that the card offers, clicked with the remote
    store answering without error, makes the list strictly shorter and
    takes its entry off the list; a successful [Clear All], which is
    only offered on a non-empty list, does so too. *)
Theorem offered_click_shrinks_list
        (env : Env) (uid : string) (b : Click) (c : Component) :
  In b (buttons (history c)) ->
  (forall item, b = ClickRemove item ->
     write_error (removeVideoFromHistory env (id item)) = None ->
     length (history (exec (onClick env uid b) c)) < length (history c) /\
     ~ In item (history (exec (onClick env uid b) c))) /\
  (b = ClickClearAll ->
     write_error (clearVideoHistory env uid) = None ->
     length (history (exec (onClick env uid b) c)) < length (history c) /\
     history (exec (onClick env uid b) c) = []).
Proof.
  intros Hoffered. split.
  - intros item -> Hok.
    apply offered_remove_on_display in Hoffered.
    unfold exec; cbn [onClick].
    rewrite (removeFromHistory_success env (id item) c Hok); cbn.
    split.
    + apply (filter_drops_shorter _ item); [exact Hoffered|].
      rewrite String.eqb_refl. reflexivity.
    + rewrite filter_In, String.eqb_refl. cbn. intros [_ Hkept]. discriminate.
  - intros -> Hok.
    unfold exec; cbn [onClick].
    rewrite (clearHistory_success env uid c Hok); cbn.
    split; [|reflexivity].
    destruct (history c); [contradiction | cbn; lia].
Qed.

Lemma offered_click_shrinks_list_witness :
  In (ClickRemove Sample.lecture) (buttons [Sample.talk; Sample.lecture]) /\
  write_error (removeVideoFromHistory (Sample.online None None) (id Sample.lecture))
    = None /\
  length (history (exec (onClick (Sample.online None None) "u-17"
                           (ClickRemove Sample.lecture))
                     (Sample.showing [Sample.talk; Sample.lecture])))
    < length [Sample.talk; Sample.lecture].
Proof.
  assert (Hoffered : In (ClickRemove Sample.lecture)
                        (buttons [Sample.talk; Sample.lecture])).
  { cbn. intuition. }
  split; [exact Hoffered|]. split; [reflexivity|].
  apply (proj1 (offered_click_shrinks_list (Sample.online None None) "u-17"
                  (ClickRemove Sample.lecture)
                  (Sample.showing [Sample.talk; Sample.lecture]) Hoffered)
           Sample.lecture eq_refl eq_refl).
Defined.

(** ** The subscription to [videoHistoryUpdated] *)

Lemma addEventListener_new (type uid : string) (k : nat) (ls : list Listener) :
  (forall l, In l ls -> closure l < k) ->
  addEventListener (mkListener type k uid) ls = ls ++ [mkListener type k uid].
Proof.
  intros Hold. unfold addEventListener.
  destruct (existsb _ ls) eqn:Hlisted; [|reflexivity].
  apply existsb_exists in Hlisted as [l [Hl Hsame]].
  unfold same_listener in Hsame. cbn in Hsame.
  apply andb_prop in Hsame as [_ Hsame]. apply Nat.eqb_eq in Hsame.
  specialize (Hold l Hl). lia.
Qed.

Lemma removeEventListener_last (type uid : string) (k : nat) (ls : list Listener) :
  (forall l, In l ls -> closure l < k) ->
  removeEventListener type k (ls ++ [mkListener type k uid]) = ls.
Proof.
  induction ls as [|l ls IH]; intros Hold; cbn.
  - unfold same_listener; cbn. now rewrite String.eqb_refl, Nat.eqb_refl.
  - assert (Hother : same_listener type k l = false).
    { unfold same_listener. apply andb_false_iff. right.
      apply Nat.eqb_neq. specialize (Hold l (or_introl eq_refl)). lia. }
    rewrite Hother. f_equal. apply IH.
    intros l' Hl'. apply Hold. right. exact Hl'.
Qed.

Lemma mount_subscribed (env : Env) (uid : string) (p : Page) :
  listeners_known p ->
  subscribed_after (listeners p) (mount env uid p) /\
  rendered_userId (mount env uid p) = uid.
Proof.
  intros Hknown. unfold subscribed_after, mount, useEffect_body; cbn.
  rewrite (addEventListener_new _ _ _ _ Hknown).
  repeat split; [exact Hknown | lia].
Qed.

Lemma cleanup_unsubscribes (others : list Listener) (m : Mounted) :
  subscribed_after others m ->
  listeners (unmount m) = others /\ listeners_known (unmount m).
Proof.
  intros [Hlisted [Hold Hmade]]. unfold unmount, useEffect_cleanup, listeners_known; cbn.
  rewrite Hlisted, (removeEventListener_last _ _ _ _ Hold).
  split; [reflexivity|].
  intros l Hl. specialize (Hold l Hl). lia.
Qed.

Lemma rerender_subscribed (env : Env) (uid : string) (others : list Listener)
      (m : Mounted) :
  subscribed_after others m ->
  subscribed_after others (rerender env uid m) /\
  rendered_userId (rerender env uid m) = uid.
Proof.
  intros Hsub. unfold rerender.
  destruct (String.eqb_spec uid (rendered_userId m)) as [Hsame | Hchanged].
  - split; [exact Hsub | now symmetry].
  - destruct (cleanup_unsubscribes others m Hsub) as [Hleft Hknown].
    destruct (mount_subscribed env uid (unmount m) Hknown) as [Hagain Huid].
    rewrite Hleft in Hagain. split; assumption.
Qed.

Lemma last_of_nonempty {A : Type} (a d d' : A) (l : list A) :
  last (a :: l) d = last (a :: l) d'.
Proof.
  revert a. induction l as [|b l IH]; intros a; [reflexivity|].
  change (last (b :: l) d = last (b :: l) d'). apply IH.
Qed.

Lemma rerenders_subscribed (steps : list (Env * string)) (others : list Listener)
      (m : Mounted) :
  subscribed_after others m ->
  subscribed_after others (rerenders steps m) /\
  rendered_userId (rerenders steps m) = last (map snd steps) (rendered_userId m).
Proof.
  revert m. induction steps as [|[env uid] steps IH]; intros m Hsub.
  - split; [exact Hsub | reflexivity].
  - destruct (rerender_subscribed env uid others m Hsub) as [Hnext Huid].
    destruct (IH _ Hnext) as [Hend Hlast].
    unfold rerenders in *. cbn [fold_left fst snd map].
    split; [exact Hend|].
    rewrite Hlast, Huid.
    destruct steps as [|step steps']; [reflexivity|].
    change (last (snd step :: map snd steps') uid
            = last (snd step :: map snd steps') (rendered_userId m)).
    apply last_of_nonempty.
Qed.

Lemma lifetime_subscribed (env : Env) (uid : string) (steps : list (Env * string))
      (p : Page) :
  listeners_known p ->
  subscribed_after (listeners p) (rerenders steps (mount env uid p)) /\
  rendered_userId (rerenders steps (mount env uid p)) = last (map snd steps) uid.
Proof.
  intros Hknown.
  destruct (mount_subscribed env uid p Hknown) as [Hsub Huid].
  destruct (rerenders_subscribed steps _ _ Hsub) as [Hend Hlast].
  rewrite Huid in Hlast. split; assumption.
Qed.

(** X13: the subscription is released: mounting the component, any
    number of renders with changing [userId], and unmounting leave
    [window]'s listener list exactly as it was before the mount. *)
Theorem unmount_releases_subscription
        (env : Env) (uid : string) (steps : list (Env * string)) (p : Page) :
  listeners_known p ->
  listeners (unmount (rerenders steps (mount env uid p))) = listeners p.
Proof.
  intros Hknown.
  destruct (lifetime_subscribed env uid steps p Hknown) as [Hsub _].
  apply (cleanup_unsubscribes _ _ Hsub).
Qed.

Lemma unmount_releases_subscription_witness :
  listeners_known (mkPage mounted [mkListener "reprocessVideo" 0 ""] 1) /\
  listeners
    (unmount
       (rerenders [(Sample.online (Some [Sample.talk]) None, "u-17");
                   (Sample.offline None, "anonymous")]
          (mount (Sample.offline None) "anonymous"
             (mkPage mounted [mkListener "reprocessVideo" 0 ""] 1))))
    = [mkListener "reprocessVideo" 0 ""].
Proof.
  assert (Hknown : listeners_known (mkPage mounted [mkListener "reprocessVideo" 0 ""] 1)).
  { intros l [<- | []]. cbn. lia. }
  split; [exact Hknown|].
  apply (unmount_releases_subscription (Sample.offline None) "anonymous"
           [(Sample.online (Some [Sample.talk]) None, "u-17");
            (Sample.offline None, "anonymous")]
           (mkPage mounted [mkListener "reprocessVideo" 0 ""] 1) Hknown).
Defined.

(** X14: while mounted, the component holds exactly one listener on
    [window], for [videoHistoryUpdated], and its callback captures the
    [userId] of the latest render: after any number of [userId]
    changes no earlier callback, with an earlier [userId], is still
    listed. *)
Theorem one_listener_for_current_user
        (env : Env) (uid : string) (steps : list (Env * string)) (p : Page) :
  listeners_known p ->
  exists callback,
    listeners (page (rerenders steps (mount env uid p)))
    = listeners p
        ++ [mkListener "videoHistoryUpdated" callback (last (map snd steps) uid)].
Proof.
  intros Hknown.
  destruct (lifetime_subscribed env uid steps p Hknown) as [[Hlisted _] Hlast].
  exists (subscription (rerenders steps (mount env uid p))).
  rewrite Hlisted, Hlast. reflexivity.
Qed.

Lemma one_listener_for_current_user_witness :
  listeners_known (mkPage mounted [] 0) /\
  exists callback,
    listeners
      (page (rerenders [(Sample.online (Some [Sample.talk]) None, "u-17");
                        (Sample.online (Some [Sample.talk]) None, "u-17");
                        (Sample.online (Some [Sample.clip]) None, "u-18")]
               (mount (Sample.offline None) "anonymous" (mkPage mounted [] 0))))
    = [mkListener "videoHistoryUpdated" callback "u-18"].
Proof.
  assert (Hknown : listeners_known (mkPage mounted [] 0)) by (intros l []).
  split; [exact Hknown|].
  exact (one_listener_for_current_user (Sample.offline None) "anonymous"
           [(Sample.online (Some [Sample.talk]) None, "u-17");
            (Sample.online (Some [Sample.talk]) None, "u-17");
            (Sample.online (Some [Sample.clip]) None, "u-18")]
           (mkPage mounted [] 0) Hknown).
Defined.

(** X15: a [videoHistoryUpdated] event received while mounted (on a
    page with no other listener) runs [loadHistory] exactly once, for
    the [userId] of the latest render, and leaves the listener list
    alone; a second event right after, against the same outside world,
    does not change the list again. *)
Theorem refresh_event_reloads_once
        (env refreshed : Env) (uid : string) (steps : list (Env * string))
        (p : Page) :
  listeners p = [] ->
  component
    (dispatch_videoHistoryUpdated refreshed
       (page (rerenders steps (mount env uid p))))
    = exec (loadHistory refreshed (last (map snd steps) uid))
        (component (page (rerenders steps (mount env uid p)))) /\
  listeners
    (dispatch_videoHistoryUpdated refreshed
       (page (rerenders steps (mount env uid p))))
    = listeners (page (rerenders steps (mount env uid p))) /\
  history
    (component
       (dispatch_videoHistoryUpdated refreshed
          (dispatch_videoHistoryUpdated refreshed
             (page (rerenders steps (mount env uid p))))))
    = history
        (component
           (dispatch_videoHistoryUpdated refreshed
              (page (rerenders steps (mount env uid p))))).
Proof.
  intros Halone.
  assert (Hknown : listeners_known p).
  { intros l Hl. rewrite Halone in Hl. contradiction. }
  destruct (lifetime_subscribed env uid steps p Hknown) as [[Hlisted _] Hlast].
  rewrite Halone in Hlisted. cbn in Hlisted.
  unfold dispatch_videoHistoryUpdated; cbn.
  rewrite !Hlisted, !Hlast; cbn.
  unfold handleHistoryUpdated.
  split; [reflexivity|]. split; [reflexivity|].
  unfold exec. rewrite !loadHistory_run; cbn. apply loaded_list_again.
Qed.

Lemma refresh_event_reloads_once_witness :
  listeners (mkPage mounted [] 0) = [] /\
  component
    (dispatch_videoHistoryUpdated (Sample.online (Some [Sample.clip]) None)
       (page (rerenders [(Sample.online (Some [Sample.talk]) None, "u-17")]
                (mount (Sample.offline None) "anonymous" (mkPage mounted [] 0)))))
    = exec (loadHistory (Sample.online (Some [Sample.clip]) None) "u-17")
        (component
           (page (rerenders [(Sample.online (Some [Sample.talk]) None, "u-17")]
                    (mount (Sample.offline None) "anonymous"
                       (mkPage mounted [] 0))))).
Proof.
  split; [reflexivity|].
  apply (proj1 (refresh_event_reloads_once (Sample.offline None)
                  (Sample.online (Some [Sample.clip]) None) "anonymous"
                  [(Sample.online (Some [Sample.talk]) None, "u-17")]
                  (mkPage mounted [] 0) eq_refl)).
Defined.
